(** * RF-Troy: the DSP pipeline (windowing, signal generator, spectral transform)

    A shallow embedding of [src/lib/dsp/windowing.ts],
    [src/lib/dsp/signal-generator.ts] and [src/lib/dsp/fft.ts].

    Numbers.  A JavaScript number is modelled by [number]: a real, one of the
    two infinities, or NaN.  The operations follow ECMAScript on the special
    values (0/0 is NaN, x/0 is an infinity, NaN is absorbing, comparisons with
    NaN are false, [Math.max] propagates NaN, ...).  On finite operands the
    arithmetic is the exact arithmetic of the reals: the rounding of binary64
    operations and of binary32 stores into a [Float32Array], and the overflow
    such rounding can cause, are not part of the functions below, and the two
    zeros are not told apart.  Where the range of binary32 decides a
    statement, the finiteness of the decibel values, the statement is made
    over [Binary32.processSignal], in which every [Float32Array] the pipeline
    fills holds an infinity where a stored value lies beyond the binary32
    range.

    Arrays.  A [Float32Array] and a [number[]] are lists; an element store is
    stdpp's list insert, which like a typed-array store does nothing out of
    range.

    Effects.  Exceptions are the [Throw] results of the [result] type;
    [Date.now()] is a parameter [now]; the draws of [Math.random()] are a
    parameter giving the i-th draw; [console.log] is left out. *)

From Stdlib Require Import Reals Lra Lia ZArith String.
From stdpp Require Import base list.

(** ** JavaScript values and operations *)

Module JS.

Inductive number : Type :=
  | NaN
  | Infinity (negative : bool)
  | Real (r : R).

Definition is_finite (x : number) : Prop :=
  match x with Real _ => True | _ => False end.

Definition zero : number := Real 0.
Definition of_nat (n : nat) : number := Real (INR n).

(** Sign of a real as the sign bit of the infinity it scales. *)
Definition Rneg (r : R) : bool := if Rlt_dec r 0 then true else false.

Definition neg (x : number) : number :=
  match x with
  | NaN => NaN
  | Infinity s => Infinity (negb s)
  | Real r => Real (- r)
  end.

Definition add (x y : number) : number :=
  match x, y with
  | NaN, _ | _, NaN => NaN
  | Infinity s, Infinity t => if Bool.eqb s t then Infinity s else NaN
  | Infinity s, Real _ | Real _, Infinity s => Infinity s
  | Real a, Real b => Real (a + b)
  end.

Definition sub (x y : number) : number := add x (neg y).

Definition mul (x y : number) : number :=
  match x, y with
  | NaN, _ | _, NaN => NaN
  | Infinity s, Infinity t => Infinity (xorb s t)
  | Infinity s, Real r | Real r, Infinity s =>
      if Req_dec_T r 0 then NaN else Infinity (xorb s (Rneg r))
  | Real a, Real b => Real (a * b)
  end.

Definition div (x y : number) : number :=
  match x, y with
  | NaN, _ | _, NaN => NaN
  | Infinity _, Infinity _ => NaN
  | Infinity s, Real r => Infinity (xorb s (Rneg r))
  | Real _, Infinity _ => Real 0
  | Real a, Real b =>
      if Req_dec_T b 0
      then (if Req_dec_T a 0 then NaN else Infinity (Rneg a))
      else Real (a / b)
  end.

(** [x < y]: false as soon as one side is NaN. *)
Definition lt (x y : number) : bool :=
  match x, y with
  | NaN, _ | _, NaN => false
  | Infinity s, Infinity t => s && negb t
  | Infinity s, Real _ => s
  | Real _, Infinity t => negb t
  | Real a, Real b => if Rlt_dec a b then true else false
  end.

(** ToBoolean on a number: 0 and NaN are falsy. *)
Definition truthy (x : number) : bool :=
  match x with
  | NaN => false
  | Infinity _ => true
  | Real r => if Req_dec_T r 0 then false else true
  end.

(** [a[j] || d] for a [number[]] read: a missing element is [undefined],
    which is falsy as well. *)
Definition or_default (v : option number) (d : number) : number :=
  match v with
  | Some x => if truthy x then x else d
  | None => d
  end.

Definition log10 (r : R) : R := (ln r / ln 10)%R.

Definition Math_PI : number := Real PI.

Definition Math_sin (x : number) : number :=
  match x with Real r => Real (sin r) | _ => NaN end.

Definition Math_cos (x : number) : number :=
  match x with Real r => Real (cos r) | _ => NaN end.

Definition Math_sqrt (x : number) : number :=
  match x with
  | NaN => NaN
  | Infinity s => if s then NaN else Infinity false
  | Real r => if Rlt_dec r 0 then NaN else Real (sqrt r)
  end.

Definition Math_log10 (x : number) : number :=
  match x with
  | NaN => NaN
  | Infinity s => if s then NaN else Infinity false
  | Real r =>
      if Rlt_dec r 0 then NaN
      else if Req_dec_T r 0 then Infinity true
      else Real (log10 r)
  end.

Definition Math_max (x y : number) : number :=
  match x, y with
  | NaN, _ | _, NaN => NaN
  | Infinity s, Infinity t => Infinity (s && t)
  | Infinity s, Real r | Real r, Infinity s => if s then Real r else Infinity false
  | Real a, Real b => Real (Rmax a b)
  end.

Definition Math_floor (x : number) : number :=
  match x with
  | Real r => Real (IZR (Zfloor r))
  | _ => x
  end.

(** *** Exceptions *)

Inductive exn : Type :=
  | RangeError
  | Error (message : string).

Inductive result (A : Type) : Type :=
  | Ok (a : A)
  | Throw (e : exn).
Arguments Ok {A} a.
Arguments Throw {A} e.

Definition bind {A B : Type} (m : result A) (k : A -> result B) : result B :=
  match m with
  | Ok a => k a
  | Throw e => Throw e
  end.

(** *** Typed arrays *)

Abbreviation Float32Array := (list number).

(** Truncation towards zero (ToIntegerOrInfinity on a finite number). *)
Definition Ztrunc (r : R) : Z := if Rlt_dec r 0 then Zceil r else Zfloor r.

Definition max_safe_integer : Z := 2 ^ 53 - 1.

(** ToIndex: NaN counts as 0; an integer part outside [0, 2^53 - 1] is a
    RangeError.  (The smaller, host-dependent allocation limit is not
    modelled.) *)
Definition ToIndex (v : number) : result nat :=
  match v with
  | NaN => Ok 0%nat
  | Infinity _ => Throw RangeError
  | Real r =>
      let z := Ztrunc r in
      if ((0 <=? z) && (z <=? max_safe_integer))%Z
      then Ok (Z.to_nat z)
      else Throw RangeError
  end.

(** [new Float32Array(n)] for an array length [n]: all zeros. *)
Definition zeros (n : nat) : Float32Array := replicate n zero.

(** [new Float32Array(len)] for an arbitrary number [len]. *)
Definition new_Float32Array (len : number) : result Float32Array :=
  bind (ToIndex len) (fun n => Ok (zeros n)).

(** [a[i]] as a number: an out-of-range read is [undefined], NaN in
    arithmetic. *)
Definition get (a : list number) (i : nat) : number := default NaN (a !! i).

(** *** Counting loops *)

(** [for (let i = 0; i < n; i++) s = body i s] for an array length [n]. *)
Definition for_n {S : Type} (n : nat) (body : nat -> S -> S) (s : S) : S :=
  fold_left (fun acc i => body i acc) (seq 0 n) s.

(** The number of [i = 0, 1, 2, ...] with [i < bound].  Every loop of the
    program whose bound is not an array length runs after
    [new Float32Array(bound)] has accepted the bound, so the bound is never
    [+Infinity] there (the one bound for which the loop would not end). *)
Definition iterations (bound : number) : nat :=
  match bound with
  | Real r => Z.to_nat (Zceil r)
  | _ => 0%nat
  end.

(** [for (let i = 0; i < bound; i++) s = body i s] for a number [bound]. *)
Definition for_lt {S : Type} (bound : number) (body : nat -> S -> S) (s : S) : S :=
  for_n (iterations bound) body s.

End JS.

Import JS.

Declare Scope js_scope.
Delimit Scope js_scope with js.
Bind Scope js_scope with number.
Infix "+" := add : js_scope.
Infix "-" := sub : js_scope.
Infix "*" := mul : js_scope.
Infix "/" := div : js_scope.
Notation "'let*' x ':=' m 'in' k" := (bind m (fun x => k))
  (at level 10, x name, m at level 100, k at level 200).

(** ** Data model ([src/types/rf.ts]) *)

Record TimeSignal : Type := {
  samples : Float32Array;
  sampleRate : number;
  timestamp : number;
  duration : number;
}.

Record SpectrumData : Type := {
  frequencies : Float32Array;
  magnitudes : Float32Array;
  spectrum_timestamp : number;
  binWidth : number;
}.

(** [windowType] is a string at run time; the union type of the declaration
    is erased, and [applyWindow] has a [default] branch for other strings. *)
Record DSPConfig : Type := {
  fftSize : number;
  windowType : string;
  averagingCount : number;
}.

(** ** Window functions ([src/lib/dsp/windowing.ts]) *)

Module WindowFunctions.

(** The three window constructors are only ever called with an array length
    ([signal.length]), so [length] is a [nat] here. *)
Definition rectangular (length : nat) : Float32Array :=
  for_n length (fun i window => <[i := Real 1]> window) (zeros length).

Definition hanning (length : nat) : Float32Array :=
  for_n length
    (fun i window =>
       <[i := (Real 0.5 *
               (Real 1 - Math_cos (Real 2 * Math_PI * of_nat i
                                   / (of_nat length - Real 1))))%js]> window)
    (zeros length).

Definition hamming (length : nat) : Float32Array :=
  for_n length
    (fun i window =>
       <[i := (Real 0.54 -
               Real 0.46 * Math_cos (Real 2 * Math_PI * of_nat i
                                     / (of_nat length - Real 1)))%js]> window)
    (zeros length).

Definition unknown_window_type (windowType : string) : exn :=
  Error (String.append "Unknown window type: " windowType).

Definition applyWindow (signal : Float32Array) (windowType : string)
  : result Float32Array :=
  let* window :=
    if String.eqb windowType "rectangular" then Ok (rectangular (length signal))
    else if String.eqb windowType "hanning" then Ok (hanning (length signal))
    else if String.eqb windowType "hamming" then Ok (hamming (length signal))
    else Throw (unknown_window_type windowType) in
  Ok (for_n (length signal)
        (fun i windowedSignal =>
           <[i := (get signal i * get window i)%js]> windowedSignal)
        (zeros (length signal))).

End WindowFunctions.

(** ** Signal generator ([src/lib/dsp/signal-generator.ts]) *)

Module SignalGenerator.

Definition createSineWave (frequency amplitude duration sampleRate now : number)
  : result TimeSignal :=
  let numSamples := Math_floor (duration * sampleRate)%js in
  let* samples := new_Float32Array numSamples in
  let samples :=
    for_lt numSamples
      (fun i samples =>
         let time := (of_nat i / sampleRate)%js in
         <[i := (amplitude * Math_sin (Real 2 * Math_PI * frequency * time))%js]>
           samples)
      samples in
  Ok {| samples := samples; sampleRate := sampleRate;
        timestamp := now; duration := duration |}.

Definition createMultiTone (frequencies amplitudes : list number)
    (duration sampleRate now : number) : result TimeSignal :=
  let numSamples := Math_floor (duration * sampleRate)%js in
  let* samples := new_Float32Array numSamples in
  let samples :=
    for_n (length frequencies)
      (fun freqIndex samples =>
         let freq := get frequencies freqIndex in
         let amp := or_default (amplitudes !! freqIndex) (Real 1) in
         for_lt numSamples
           (fun i samples =>
              let time := (of_nat i / sampleRate)%js in
              <[i := (get samples i
                      + amp * Math_sin (Real 2 * Math_PI * freq * time))%js]>
                samples)
           samples)
      samples in
  Ok {| samples := samples; sampleRate := sampleRate;
        timestamp := now; duration := duration |}.

(** [random i] is the value of the i-th call of [Math.random()], a real in
    [0, 1); the loop makes one call per sample, in index order. *)
Definition createWhiteNoise (random : nat -> R)
    (amplitude duration sampleRate now : number) : result TimeSignal :=
  let numSamples := Math_floor (duration * sampleRate)%js in
  let* samples := new_Float32Array numSamples in
  let samples :=
    for_lt numSamples
      (fun i samples =>
         <[i := (amplitude * (Real 2 * Real (random i) - Real 1))%js]> samples)
      samples in
  Ok {| samples := samples; sampleRate := sampleRate;
        timestamp := now; duration := duration |}.

(** The [instantFreq] constant of the chirp loop. *)
Definition instantFreq (startFreq endFreq duration time : number) : number :=
  (startFreq + (endFreq - startFreq) * (time / duration))%js.

Definition createChirp (startFreq endFreq duration sampleRate now : number)
  : result TimeSignal :=
  let numSamples := Math_floor (duration * sampleRate)%js in
  let* samples := new_Float32Array numSamples in
  let samples :=
    for_lt numSamples
      (fun i samples =>
         let time := (of_nat i / sampleRate)%js in
         <[i := Math_sin (Real 2 * Math_PI
                          * instantFreq startFreq endFreq duration time
                          * time)%js]> samples)
      samples in
  Ok {| samples := samples; sampleRate := sampleRate;
        timestamp := now; duration := duration |}.

End SignalGenerator.

(** ** Spectral transform ([src/lib/dsp/fft.ts]) *)

Module FFTProcessor.

Record ComplexNumber : Type := { real : number; imag : number }.

Record processor : Type := { config : DSPConfig }.

(** The constructor stores the configuration and does nothing else. *)
Definition constructor (cfg : DSPConfig) : result processor :=
  Ok {| config := cfg |}.

Definition extractChunk (samples : Float32Array) (chunkSize : number)
  : result Float32Array :=
  let* chunk := new_Float32Array chunkSize in
  Ok (for_lt chunkSize
        (fun i chunk =>
           <[i := if (i <? length samples)%nat then get samples i else zero]>
             chunk)
        chunk).

(** One round of the outer loop of [computeFFT]: the sums of bin [k]. *)
Definition computeFFT_bin (samples : Float32Array) (k : nat) : ComplexNumber :=
  let N := length samples in
  let '(realSum, imagSum) :=
    for_n N
      (fun n '(realSum, imagSum) =>
         let angle :=
           (Real (-2) * Math_PI * of_nat k * of_nat n / of_nat N)%js in
         ((realSum + get samples n * Math_cos angle)%js,
          (imagSum + get samples n * Math_sin angle)%js))
      (zero, zero) in
  {| real := realSum; imag := imagSum |}.

Definition computeFFT (samples : Float32Array) : list ComplexNumber :=
  let N := length samples in
  for_lt (of_nat N / Real 2)%js
    (fun k result => result ++ [computeFFT_bin samples k])
    [].

(** The magnitude stored for one complex value. *)
Definition magnitude (c : ComplexNumber) : number :=
  Math_sqrt (real c * real c + imag c * imag c)%js.

(** [complexData[i]] is always in range here (i < complexData.length); the
    [None] case stands for the [undefined] of an out-of-range read. *)
Definition computeMagnitudes (complexData : list ComplexNumber) : Float32Array :=
  for_n (length complexData)
    (fun i magnitudes =>
       <[i := match complexData !! i with
              | Some c => magnitude c
              | None => NaN
              end]> magnitudes)
    (zeros (length complexData)).

Definition createFrequencyAxis (cfg : DSPConfig) (sampleRate : number)
  : result Float32Array :=
  let numBins := (fftSize cfg / Real 2)%js in
  let* frequencies := new_Float32Array numBins in
  Ok (for_lt numBins
        (fun i frequencies =>
           <[i := (of_nat i * sampleRate / fftSize cfg)%js]> frequencies)
        frequencies).

(** The decibel value stored for one magnitude. *)
Definition decibels (magnitude : number) : number :=
  let mag := Math_max magnitude (Real 1e-10) in
  (Real 20 * Math_log10 mag)%js.

Definition convertToDecibels (magnitudes : Float32Array) : Float32Array :=
  for_n (length magnitudes)
    (fun i dB => <[i := decibels (get magnitudes i)]> dB)
    (zeros (length magnitudes)).

Definition processSignal (this : processor) (signal : TimeSignal) (now : number)
  : result SpectrumData :=
  let cfg := config this in
  let* chunk := extractChunk (samples signal) (fftSize cfg) in
  let* windowedChunk := WindowFunctions.applyWindow chunk (windowType cfg) in
  let fftResult := computeFFT windowedChunk in
  let magnitudes := computeMagnitudes fftResult in
  let* frequencies := createFrequencyAxis cfg (sampleRate signal) in
  let magnitudesDB := convertToDecibels magnitudes in
  Ok {| frequencies := frequencies;
        magnitudes := magnitudesDB;
        spectrum_timestamp := now;
        binWidth := (sampleRate signal / fftSize cfg)%js |}.

End FFTProcessor.

(** ** The range of a [Float32Array] element

    A value stored into a [Float32Array] is converted to binary32.  [fround]
    is that conversion as far as the range goes: a real of absolute value
    2^128 - 2^103 or more (half a unit in the last place above the largest
    binary32 value, from where round-to-nearest goes to infinity) becomes the
    infinity of its sign; NaN and the infinities are kept; a real within the
    range is kept as it is, its rounding to the nearest binary32 value being
    left out as everywhere else. *)

Module Binary32.

Definition overflow_threshold : R := (2 ^ 128 - 2 ^ 103)%R.

Definition fround (x : number) : number :=
  match x with
  | Real r =>
      if Rle_dec overflow_threshold (Rabs r) then Infinity (Rneg r) else Real r
  | _ => x
  end.

(** What a [Float32Array] holds after a loop has stored the values [a] into
    it, one store per element (lemma [store_loop_stored]). *)
Definition stored (a : Float32Array) : Float32Array := fround <$> a.

(** [processSignal] of [fft.ts] with the conversion at every [Float32Array]
    the pipeline fills: the chunk, the windowed chunk, the linear magnitudes,
    the frequency axis and the decibel values.  [fftResult] is an array of
    plain numbers and [binWidth] a plain number: no conversion there.  The
    window coefficients lie in [0, 1] or are NaN, so that their own store
    changes nothing. *)
Definition processSignal (this : FFTProcessor.processor) (signal : TimeSignal)
    (now : number) : result SpectrumData :=
  let cfg := FFTProcessor.config this in
  let* chunk := FFTProcessor.extractChunk (samples signal) (fftSize cfg) in
  let chunk := stored chunk in
  let* windowedChunk := WindowFunctions.applyWindow chunk (windowType cfg) in
  let windowedChunk := stored windowedChunk in
  let fftResult := FFTProcessor.computeFFT windowedChunk in
  let magnitudes := stored (FFTProcessor.computeMagnitudes fftResult) in
  let* frequencies := FFTProcessor.createFrequencyAxis cfg (sampleRate signal) in
  let frequencies := stored frequencies in
  let magnitudesDB := stored (FFTProcessor.convertToDecibels magnitudes) in
  Ok {| frequencies := frequencies;
        magnitudes := magnitudesDB;
        spectrum_timestamp := now;
        binWidth := (sampleRate signal / fftSize cfg)%js |}.

End Binary32.

(** ** The formulas of the specification

    Written from the words of the specification, to be compared with what the
    code computes. *)

(** Sum of [f 0 .. f (N-1)] over the reals. *)
Fixpoint big_sum (N : nat) (f : nat -> R) : R :=
  match N with
  | O => 0%R
  | S n => (big_sum n f + f n)%R
  end.

(** Sum of [term 0 .. term (m-1)] over JavaScript numbers, from 0, in index
    order. *)
Fixpoint sum_components (m : nat) (term : nat -> number) : number :=
  match m with
  | O => zero
  | S m' => (sum_components m' term + term m')%js
  end.

(** real[k] and imag[k] of a chunk [x] of reals, N = length x. *)
Definition dft_real (x : list R) (k : nat) : R :=
  big_sum (length x)
    (fun n => nth n x 0 * cos (-2 * PI * INR k * INR n / INR (length x)))%R.

Definition dft_imag (x : list R) (k : nat) : R :=
  big_sum (length x)
    (fun n => nth n x 0 * sin (-2 * PI * INR k * INR n / INR (length x)))%R.



(** One multi-tone component at sample [i]: amplitude times
    sin(2 pi frequency t), t = i / sampleRate. *)
Definition tone (sampleRate : number) (i : nat) (amp freq : number) : number :=
  (amp * Math_sin (Real 2 * Math_PI * freq * (of_nat i / sampleRate)))%js.

(** The multi-tone sample of the specification: the amplitude of component j
    is [amplitudes[j]], and 1.0 when that is missing. *)
Definition multitone_sample (frequencies amplitudes : list number)
    (sampleRate : number) (i : nat) : number :=
  sum_components (length frequencies)
    (fun j => tone sampleRate i (default (Real 1) (amplitudes !! j))
                (get frequencies j)).

(** What the code adds up: the amplitude goes through [|| 1]. *)
Definition multitone_code_sample (frequencies amplitudes : list number)
    (sampleRate : number) (i : nat) : number :=
  sum_components (length frequencies)
    (fun j => tone sampleRate i (or_default (amplitudes !! j) (Real 1))
                (get frequencies j)).

(** A number the typed-array constructor accepts as a length. *)
Definition valid_length (v : number) : Prop := exists n, ToIndex v = Ok n.



(** The coefficients stored by the Hanning and Hamming loops. *)
Definition hanning_coefficient (length i : nat) : number :=
  (Real 0.5 *
   (Real 1 - Math_cos (Real 2 * Math_PI * of_nat i / (of_nat length - Real 1))))%js.

Definition hamming_coefficient (length i : nat) : number :=
  (Real 0.54 -
   Real 0.46 * Math_cos (Real 2 * Math_PI * of_nat i / (of_nat length - Real 1)))%js.

Definition recognized (windowType : string) : Prop :=
  windowType = "rectangular"%string \/ windowType = "hanning"%string \/
  windowType = "hamming"%string.

(** The window [applyWindow] multiplies by, for a recognized kind. *)
Definition window_of (windowType : string) (n : nat) : Float32Array :=
  if String.eqb windowType "rectangular" then WindowFunctions.rectangular n
  else if String.eqb windowType "hanning" then WindowFunctions.hanning n
  else WindowFunctions.hamming n.

(** ** Spectrum display and application
    ([src/components/visualizer/spectrum-display.tsx])

    The 2D context is modelled by the list of the calls made on it, in
    order; the React state setters of the application by the value
    [generateAndAnalyze] hands to them. *)

Definition Math_min (x y : number) : number :=
  match x, y with
  | NaN, _ | _, NaN => NaN
  | Infinity s, Infinity t => Infinity (s || t)
  | Infinity s, Real r | Real r, Infinity s => if s then Infinity true else Real r
  | Real a, Real b => Real (Rmin a b)
  end.

Module SpectrumDisplay.

Inductive canvas_call : Type :=
  | set_strokeStyle (style : string)
  | set_fillStyle (style : string)
  | set_lineWidth (w : number)
  | beginPath
  | moveTo (x y : number)
  | lineTo (x y : number)
  | stroke
  | closePath
  | fill.

(** The [x] and [y] constants of round [i] of the loop of [drawSpectrum]. *)
Definition spectrum_x (data : SpectrumData) (width : number) (i : nat) : number :=
  (of_nat i / of_nat (length (magnitudes data)) * width)%js.

Definition spectrum_y (data : SpectrumData) (height minDb maxDb : number) (i : nat)
  : number :=
  let dbRange := (maxDb - minDb)%js in
  let normalizedDb :=
    Math_max (Real 0)
      (Math_min (Real 1) ((get (magnitudes data) i - minDb) / dbRange)%js) in
  (height - normalizedDb * height)%js.

Definition drawSpectrum (data : SpectrumData) (width height minDb maxDb : number)
  : list canvas_call :=
  if (length (magnitudes data) =? 0)%nat then []
  else
    let ctx := [set_strokeStyle "#00ff00"; set_lineWidth (Real 2); beginPath] in
    let ctx :=
      for_n (length (magnitudes data))
        (fun i ctx =>
           let x := spectrum_x data width i in
           let y := spectrum_y data height minDb maxDb i in
           if (i =? 0)%nat then ctx ++ [moveTo x y] else ctx ++ [lineTo x y])
        ctx in
    ctx ++ [stroke; set_fillStyle "rgba(0, 255, 0, 0.1)";
            lineTo width height; lineTo (Real 0) height; closePath; fill].

End SpectrumDisplay.

(** A path call whose point lies on the canvas [0, width] x [0, height];
    the other calls carry no point. *)
Definition in_canvas (width height : R) (call : SpectrumDisplay.canvas_call) : Prop :=
  match call with
  | SpectrumDisplay.moveTo x y | SpectrumDisplay.lineTo x y =>
      exists a b, x = Real a /\ y = Real b /\
                  (0 <= a <= width)%R /\ (0 <= b <= height)%R
  | _ => True
  end.

Module RFAnalysisApp.

Record SignalParams : Type := {
  type : string;
  frequency : number;
  amplitude : number;
  duration : number;
  sampleRate : number;
}.

(** [generateAndAnalyze]: [None] is the [default: return] of the switch (no
    state is set); [Some (signal, spectrum)] are the values passed to
    [setCurrentSignal] and [setSpectrumData]; an exception of the generator
    or of the processor leaves the callback ([Throw]).  [now] and [now']
    are the two readings of [Date.now()]. *)
Definition generateAndAnalyze (signalParams : SignalParams) (dspConfig : DSPConfig)
    (random : nat -> R) (now now' : number)
  : result (option (TimeSignal * SpectrumData)) :=
  let generated : option (result TimeSignal) :=
    if String.eqb (type signalParams) "sine" then
      Some (SignalGenerator.createSineWave
              (frequency signalParams) (amplitude signalParams)
              (duration signalParams) (sampleRate signalParams) now)
    else if String.eqb (type signalParams) "multitone" then
      Some (SignalGenerator.createMultiTone
              [frequency signalParams; (frequency signalParams * Real 2)%js;
               (frequency signalParams * Real 3)%js]
              [amplitude signalParams; (amplitude signalParams * Real 0.5)%js;
               (amplitude signalParams * Real 0.3)%js]
              (duration signalParams) (sampleRate signalParams) now)
    else if String.eqb (type signalParams) "noise" then
      Some (SignalGenerator.createWhiteNoise random
              (amplitude signalParams)
              (duration signalParams) (sampleRate signalParams) now)
    else if String.eqb (type signalParams) "chirp" then
      Some (SignalGenerator.createChirp
              (frequency signalParams) (frequency signalParams * Real 4)%js
              (duration signalParams) (sampleRate signalParams) now)
    else None in
  match generated with
  | None => Ok None
  | Some generatedSignal =>
      let* signal := generatedSignal in
      let* fftProcessor := FFTProcessor.constructor dspConfig in
      let* spectrum := FFTProcessor.processSignal fftProcessor signal now' in
      Ok (Some (signal, spectrum))
  end.

End RFAnalysisApp.

(** * Properties *)

(** ** Loops and array stores *)

Ltac case_R :=
  repeat match goal with
    | |- context [Req_dec_T ?a ?b] => destruct (Req_dec_T a b); try lra
    | |- context [Rlt_dec ?a ?b] => destruct (Rlt_dec a b); try lra
    end.

Lemma for_n_S {S : Type} (n : nat) (body : nat -> S -> S) (s : S) :
  for_n (Datatypes.S n) body s = body n (for_n n body s).
Proof.
  unfold for_n. rewrite seq_S, fold_left_app. reflexivity.
Qed.

Lemma for_n_0 {S : Type} (body : nat -> S -> S) (s : S) : for_n 0 body s = s.
Proof. reflexivity. Qed.

(** A loop whose i-th round stores into slot i a value computed from i and
    from the old content of slot i.  Rounds beyond the length of the array
    store nothing. *)
Lemma for_n_update (h : nat -> number -> number)
    (body : nat -> Float32Array -> Float32Array) :
  (forall i a, body i a = <[i := h i (get a i)]> a) ->
  forall (n : nat) (a : Float32Array),
    length (for_n n body a) = length a /\
    forall j, for_n n body a !! j =
              if decide (j < n /\ j < length a)%nat
              then Some (h j (get a j)) else a !! j.
Proof.
  intros Hbody n a. induction n as [|n [IHlen IH]].
  - split; [reflexivity|]. intros j. rewrite for_n_0.
    destruct (decide _) as [[H _]|_]; [lia | reflexivity].
  - rewrite for_n_S, Hbody. split.
    + rewrite length_insert. exact IHlen.
    + intros j. rewrite list_lookup_insert, IHlen.
      assert (Hn : get (for_n n body a) n = get a n).
      { unfold get. rewrite IH.
        destruct (decide _) as [[H _]|_]; [lia | reflexivity]. }
      rewrite Hn, IH.
      repeat destruct (decide _); try reflexivity; try lia;
        destruct_and?; subst; try reflexivity; exfalso; lia.
Qed.

Lemma for_n_store (f : nat -> number)
    (body : nat -> Float32Array -> Float32Array) :
  (forall i a, body i a = <[i := f i]> a) ->
  forall (n : nat) (a : Float32Array),
    length (for_n n body a) = length a /\
    forall j, for_n n body a !! j =
              if decide (j < n /\ j < length a)%nat then Some (f j) else a !! j.
Proof.
  intros Hbody. apply (for_n_update (fun i _ => f i)). exact Hbody.
Qed.

(** Filling a whole fresh array. *)
Lemma for_n_fill (f : nat -> number)
    (body : nat -> Float32Array -> Float32Array) (n m : nat) :
  (forall i a, body i a = <[i := f i]> a) ->
  (n <= m)%nat ->
  for_n m body (zeros n) = f <$> seq 0 n.
Proof.
  intros Hbody Hle.
  destruct (for_n_store f body Hbody m (zeros n)) as [Hlen Hlk].
  apply list_eq. intros j. rewrite Hlk.
  unfold zeros. rewrite length_replicate.
  destruct (decide _) as [[_ Hj]|Hj].
  - rewrite list_lookup_fmap, lookup_seq_lt by lia. reflexivity.
  - assert (n <= j)%nat as Hge by lia.
    rewrite (proj1 (lookup_replicate_None n zero j) Hge).
    symmetry. apply lookup_ge_None. rewrite length_fmap, length_seq. lia.
Qed.

Lemma lookup_zeros (n j : nat) :
  zeros n !! j = if decide (j < n)%nat then Some zero else None.
Proof.
  unfold zeros. destruct (decide _).
  - apply lookup_replicate_2. assumption.
  - apply lookup_replicate_None. lia.
Qed.

(** ** Integer parts *)

Lemma Zceil_INR (n : nat) : Zceil (INR n) = Z.of_nat n.
Proof. apply Zceil_eq. rewrite <- INR_IZR_INZ. lra. Qed.

Lemma Zfloor_INR (n : nat) : Zfloor (INR n) = Z.of_nat n.
Proof. apply Zfloor_eq. rewrite <- INR_IZR_INZ. lra. Qed.

Lemma iterations_of_nat (n : nat) : iterations (of_nat n) = n.
Proof. unfold iterations, of_nat. rewrite Zceil_INR. lia. Qed.

(** [iterations] counts exactly the indices that pass the loop test. *)
Lemma iterations_spec (r : R) (i : nat) :
  (i < iterations (Real r))%nat <-> lt (of_nat i) (Real r) = true.
Proof.
  unfold iterations, lt, of_nat.
  pose proof (Zceil_bound r) as [Hlo Hhi].
  rewrite INR_IZR_INZ.
  destruct (Rlt_dec (IZR (Z.of_nat i)) r) as [Hlt|Hge]; split; intros H;
    try reflexivity; try discriminate.
  - assert (Z.of_nat i < Zceil r)%Z; [|lia].
    apply lt_IZR. lra.
  - exfalso. apply Hge.
    assert (Z.of_nat i + 1 <= Zceil r)%Z as Hz by lia.
    apply IZR_le in Hz. rewrite plus_IZR in Hz. lra.
Qed.

Lemma div_2 (a : R) : (Real a / Real 2)%js = Real (a / 2).
Proof. unfold div. case_R. reflexivity. Qed.

Lemma INR_half_bounds (n : nat) :
  (IZR (Z.of_nat (n / 2)) <= INR n / 2 < IZR (Z.of_nat (n / 2)) + 1)%R /\
  (IZR (Z.of_nat ((n + 1) / 2)) - 1 < INR n / 2 <= IZR (Z.of_nat ((n + 1) / 2)))%R.
Proof.
  rewrite INR_IZR_INZ.
  pose proof (Nat.div_mod_eq n 2) as H1.
  pose proof (Nat.mod_upper_bound n 2 ltac:(lia)) as H2.
  pose proof (Nat.div_mod_eq (n + 1) 2) as H3.
  pose proof (Nat.mod_upper_bound (n + 1) 2 ltac:(lia)) as H4.
  assert (Ha : (2 * Z.of_nat (n / 2) <= Z.of_nat n < 2 * Z.of_nat (n / 2) + 2)%Z) by lia.
  assert (Hb : (2 * Z.of_nat ((n + 1) / 2) - 2 < Z.of_nat n <= 2 * Z.of_nat ((n + 1) / 2))%Z) by lia.
  destruct Ha as [Ha1 Ha2], Hb as [Hb1 Hb2].
  apply IZR_le in Ha1, Hb2. apply IZR_lt in Ha2, Hb1.
  rewrite ?plus_IZR, ?minus_IZR, ?mult_IZR in *.
  lra.
Qed.

(** The loop [for (k = 0; k < N / 2; k++)] makes ceil(N/2) rounds. *)
Lemma iterations_half (n : nat) :
  iterations (of_nat n / Real 2)%js = ((n + 1) / 2)%nat.
Proof.
  unfold of_nat. rewrite div_2. unfold iterations.
  rewrite (Zceil_eq (Z.of_nat ((n + 1) / 2))); [lia|].
  apply INR_half_bounds.
Qed.

Lemma ToIndex_of_nat (n : nat) :
  (Z.of_nat n <= max_safe_integer)%Z -> ToIndex (of_nat n) = Ok n.
Proof.
  intros Hn. unfold ToIndex, of_nat, Ztrunc.
  pose proof (pos_INR n).
  destruct (Rlt_dec (INR n) 0); [lra|].
  rewrite Zfloor_INR.
  replace (0 <=? Z.of_nat n)%Z with true by (symmetry; apply Z.leb_le; lia).
  replace (Z.of_nat n <=? max_safe_integer)%Z with true
    by (symmetry; apply Z.leb_le; lia).
  simpl. rewrite Nat2Z.id. reflexivity.
Qed.

(** [new Float32Array(N / 2)] has floor(N/2) elements. *)
Lemma ToIndex_half (n : nat) :
  (Z.of_nat n <= max_safe_integer)%Z ->
  ToIndex (of_nat n / Real 2)%js = Ok (n / 2)%nat.
Proof.
  intros Hn. unfold of_nat. rewrite div_2. unfold ToIndex, Ztrunc.
  pose proof (pos_INR n).
  destruct (Rlt_dec (INR n / 2) 0); [lra|].
  rewrite (Zfloor_eq (Z.of_nat (n / 2))) by apply INR_half_bounds.
  assert (n / 2 <= n)%nat by (apply Nat.Div0.div_le_upper_bound; lia).
  replace (0 <=? Z.of_nat (n / 2))%Z with true by (symmetry; apply Z.leb_le; lia).
  replace (Z.of_nat (n / 2) <=? max_safe_integer)%Z with true
    by (symmetry; apply Z.leb_le; lia).
  simpl. rewrite Nat2Z.id. reflexivity.
Qed.

Lemma new_Float32Array_of_nat (n : nat) :
  (Z.of_nat n <= max_safe_integer)%Z -> new_Float32Array (of_nat n) = Ok (zeros n).
Proof. intros Hn. unfold new_Float32Array. rewrite ToIndex_of_nat by assumption. reflexivity. Qed.

Lemma valid_length_of_nat (n : nat) :
  (Z.of_nat n <= max_safe_integer)%Z -> valid_length (of_nat n).
Proof. intros Hn. exists n. apply ToIndex_of_nat. assumption. Qed.

Lemma ToIndex_too_small (r : R) : (r <= -1)%R -> ToIndex (Real r) = Throw RangeError.
Proof.
  intros Hr. unfold ToIndex, Ztrunc.
  destruct (Rlt_dec r 0); [|lra].
  assert (Zceil r <= -1)%Z as Hz.
  { pose proof (Zceil_bound r) as [Hlo _].
    assert (Zceil r < 0)%Z; [|lia]. apply lt_IZR. lra. }
  replace (0 <=? Zceil r)%Z with false by (symmetry; apply Z.leb_gt; lia).
  reflexivity.
Qed.

Lemma ToIndex_in_range (r : R) :
  (-1 < r < 2 ^ 53)%R -> exists n, ToIndex (Real r) = Ok n.
Proof.
  intros [Hlo Hhi]. unfold ToIndex, Ztrunc.
  assert (Hmax : IZR max_safe_integer = (2 ^ 53 - 1)%R).
  { unfold max_safe_integer. rewrite minus_IZR.
    change (2 ^ 53)%Z with (Z.pow 2 (Z.of_nat 53)).
    rewrite <- pow_IZR. reflexivity. }
  destruct (Rlt_dec r 0).
  - pose proof (Zceil_bound r) as [H1 H2].
    assert (Zceil r = 0)%Z as ->.
    { assert (-1 < Zceil r)%Z by (apply lt_IZR; lra).
      assert (Zceil r < 1)%Z by (apply lt_IZR; lra). lia. }
    eexists. reflexivity.
  - pose proof (Zfloor_bound r) as [H1 H2].
    assert (0 <= Zfloor r)%Z.
    { assert (-1 < Zfloor r)%Z by (apply lt_IZR; lra). lia. }
    assert (Zfloor r <= max_safe_integer)%Z.
    { assert (Zfloor r < max_safe_integer + 1)%Z; [|lia].
      apply lt_IZR. rewrite plus_IZR, Hmax. lra. }
    replace (0 <=? Zfloor r)%Z with true by (symmetry; apply Z.leb_le; lia).
    replace (Zfloor r <=? max_safe_integer)%Z with true
      by (symmetry; apply Z.leb_le; lia).
    eexists. reflexivity.
Qed.

(** An allocation of [Math.floor(x)] elements, when it succeeds, gives as many
    zeros as the loop bounded by [Math.floor(x)] makes rounds. *)
Lemma new_Float32Array_floor (x : number) (a : Float32Array) :
  new_Float32Array (Math_floor x) = Ok a ->
  a = zeros (iterations (Math_floor x)).
Proof.
  unfold new_Float32Array. destruct x as [| s | r]; simpl.
  - intros [= <-]. reflexivity.
  - discriminate.
  - unfold Ztrunc.
    assert (Hc : Zceil (IZR (Zfloor r)) = Zfloor r) by (apply Zceil_eq; lra).
    assert (Hf : Zfloor (IZR (Zfloor r)) = Zfloor r) by apply ZfloorZ.
    rewrite Hc, Hf.
    destruct (Rlt_dec _ _); destruct (_ && _)%bool; simpl;
      try discriminate; intros [= <-]; reflexivity.
Qed.

(** ** The window functions *)

Module WindowFacts.
Import WindowFunctions.

Lemma rectangular_eq (n : nat) : rectangular n = replicate n (Real 1).
Proof.
  unfold rectangular.
  rewrite (for_n_fill (fun _ => Real 1)) by (reflexivity || lia).
  apply list_eq. intros j. rewrite list_lookup_fmap.
  destruct (decide (j < n)%nat).
  - rewrite lookup_seq_lt, lookup_replicate_2 by lia. reflexivity.
  - rewrite lookup_seq_ge by lia.
    symmetry. apply lookup_replicate_None. lia.
Qed.

Lemma hanning_eq (n : nat) : hanning n = hanning_coefficient n <$> seq 0 n.
Proof. unfold hanning. apply for_n_fill; [reflexivity | lia]. Qed.

Lemma hamming_eq (n : nat) : hamming n = hamming_coefficient n <$> seq 0 n.
Proof. unfold hamming. apply for_n_fill; [reflexivity | lia]. Qed.

Lemma window_of_length (windowType : string) (n : nat) :
  length (window_of windowType n) = n.
Proof.
  unfold window_of.
  repeat destruct (String.eqb _ _);
    rewrite ?rectangular_eq, ?hanning_eq, ?hamming_eq,
            ?length_replicate, ?length_fmap, ?length_seq; reflexivity.
Qed.

Lemma applyWindow_recognized (signal : Float32Array) (windowType : string) :
  recognized windowType ->
  applyWindow signal windowType =
  Ok ((fun i => (get signal i * get (window_of windowType (length signal)) i)%js)
        <$> seq 0 (length signal)).
Proof.
  intros Hrec. unfold applyWindow, window_of.
  destruct Hrec as [-> | [-> | ->]]; simpl;
    f_equal; (apply for_n_fill; [reflexivity | lia]).
Qed.

Lemma applyWindow_unrecognized (signal : Float32Array) (windowType : string) :
  ~ recognized windowType ->
  applyWindow signal windowType = Throw (unknown_window_type windowType).
Proof.
  intros Hrec. unfold applyWindow.
  destruct (String.eqb_spec windowType "rectangular") as [->|_].
  { exfalso. apply Hrec. left. reflexivity. }
  destruct (String.eqb_spec windowType "hanning") as [->|_].
  { exfalso. apply Hrec. right. left. reflexivity. }
  destruct (String.eqb_spec windowType "hamming") as [->|_].
  { exfalso. apply Hrec. right. right. reflexivity. }
  reflexivity.
Qed.

Lemma recognized_dec (windowType : string) :
  {recognized windowType} + {~ recognized windowType}.
Proof.
  unfold recognized.
  destruct (string_dec windowType "rectangular"); [left; tauto|].
  destruct (string_dec windowType "hanning"); [left; tauto|].
  destruct (string_dec windowType "hamming"); [left; tauto|].
  right. tauto.
Qed.

Lemma applyWindow_length (signal windowed : Float32Array) (windowType : string) :
  applyWindow signal windowType = Ok windowed -> length windowed = length signal.
Proof.
  destruct (recognized_dec windowType) as [Hrec|Hrec].
  - rewrite applyWindow_recognized by assumption. intros [= <-].
    rewrite length_fmap, length_seq. reflexivity.
  - rewrite applyWindow_unrecognized by assumption. discriminate.
Qed.

End WindowFacts.

(** ** The steps of the transform *)

Lemma fmap_seq_lookup {A B : Type} (l : list A) (f : nat -> B) (g : A -> B) :
  (forall i x, l !! i = Some x -> f i = g x) ->
  f <$> seq 0 (length l) = g <$> l.
Proof.
  intros H. apply list_eq. intros j. rewrite !list_lookup_fmap.
  destruct (l !! j) as [x|] eqn:E.
  - rewrite lookup_seq_lt by (eapply lookup_lt_Some; eassumption).
    simpl. f_equal. apply H. assumption.
  - rewrite lookup_seq_ge by (apply lookup_ge_None; assumption). reflexivity.
Qed.

Lemma get_lookup (a : list number) (i : nat) (x : number) :
  a !! i = Some x -> get a i = x.
Proof. unfold get. intros ->. reflexivity. Qed.

Module FFTFacts.
Import FFTProcessor.

Lemma extractChunk_of_nat (samples : Float32Array) (n : nat) :
  (Z.of_nat n <= max_safe_integer)%Z ->
  extractChunk samples (of_nat n) =
  Ok (take n samples ++ replicate (n - length samples) zero).
Proof.
  intros Hn. unfold extractChunk.
  rewrite new_Float32Array_of_nat by assumption. cbn [bind]. f_equal.
  unfold for_lt. rewrite iterations_of_nat.
  rewrite (for_n_fill
             (fun i => if (i <? length samples)%nat then get samples i else zero))
    by (reflexivity || lia).
  apply list_eq. intros j. rewrite list_lookup_fmap, lookup_app, lookup_take.
  destruct (decide (j < n)%nat) as [Hj|Hj].
  - rewrite lookup_seq_lt by lia. simpl.
    destruct (Nat.ltb_spec j (length samples)) as [Hlt|Hge].
    + destruct (lookup_lt_is_Some_2 samples j Hlt) as [x Hx].
      rewrite Hx. rewrite (get_lookup _ _ _ Hx). reflexivity.
    + rewrite (proj2 (lookup_ge_None samples j)) by lia.
      rewrite length_take.
      rewrite lookup_replicate_2 by lia. reflexivity.
  - rewrite lookup_seq_ge by lia. simpl.
    symmetry. apply lookup_replicate_None. rewrite length_take. lia.
Qed.

Lemma for_n_push {A : Type} (f : nat -> A) (m : nat) :
  for_n m (fun k result => result ++ [f k]) [] = f <$> seq 0 m.
Proof.
  induction m as [|m IH]; [reflexivity|].
  rewrite for_n_S, IH, seq_S, fmap_app. reflexivity.
Qed.

Lemma computeFFT_eq (samples : Float32Array) :
  computeFFT samples =
  computeFFT_bin samples <$> seq 0 ((length samples + 1) / 2).
Proof.
  unfold computeFFT, for_lt. rewrite iterations_half. apply for_n_push.
Qed.

Lemma computeMagnitudes_eq (complexData : list ComplexNumber) :
  computeMagnitudes complexData = magnitude <$> complexData.
Proof.
  unfold computeMagnitudes.
  rewrite (for_n_fill (fun i => match complexData !! i with
                                | Some c => magnitude c
                                | None => NaN
                                end)) by (reflexivity || lia).
  apply fmap_seq_lookup. intros i x ->. reflexivity.
Qed.

Lemma convertToDecibels_eq (magnitudes : Float32Array) :
  convertToDecibels magnitudes = decibels <$> magnitudes.
Proof.
  unfold convertToDecibels.
  rewrite (for_n_fill (fun i => decibels (get magnitudes i)))
    by (reflexivity || lia).
  apply fmap_seq_lookup. intros i x Hx. rewrite (get_lookup _ _ _ Hx). reflexivity.
Qed.

Lemma createFrequencyAxis_of_nat (cfg : DSPConfig) (sampleRate : number) (n : nat) :
  fftSize cfg = of_nat n ->
  (Z.of_nat n <= max_safe_integer)%Z ->
  createFrequencyAxis cfg sampleRate =
  Ok ((fun i => (of_nat i * sampleRate / of_nat n)%js) <$> seq 0 (n / 2)).
Proof.
  intros HF Hn. unfold createFrequencyAxis, new_Float32Array.
  rewrite HF, ToIndex_half by assumption. cbn [bind]. f_equal.
  unfold for_lt. rewrite iterations_half.
  apply for_n_fill; [reflexivity|].
  pose proof (Nat.Div0.div_le_mono n (n + 1) 2 ltac:(lia)). lia.
Qed.

(** [processSignal] succeeds exactly when its three fallible steps do. *)
Lemma processSignal_inv (this : processor) (signal : TimeSignal) (now : number)
    (sp : SpectrumData) :
  processSignal this signal now = Ok sp ->
  exists chunk windowedChunk freqs,
    extractChunk (samples signal) (fftSize (config this)) = Ok chunk /\
    WindowFunctions.applyWindow chunk (windowType (config this)) = Ok windowedChunk /\
    createFrequencyAxis (config this) (sampleRate signal) = Ok freqs /\
    frequencies sp = freqs /\
    magnitudes sp = convertToDecibels (computeMagnitudes (computeFFT windowedChunk)) /\
    binWidth sp = (sampleRate signal / fftSize (config this))%js.
Proof.
  unfold processSignal.
  destruct (extractChunk _ _) as [chunk|e] eqn:E1; cbn [bind]; [|discriminate].
  destruct (WindowFunctions.applyWindow _ _) as [w|e] eqn:E2; cbn [bind];
    [|discriminate].
  destruct (createFrequencyAxis _ _) as [fr|e] eqn:E3; cbn [bind]; [|discriminate].
  intros [= <-]. exists chunk, w, fr. simpl. auto 10.
Qed.

Lemma processSignal_steps (this : processor) (signal : TimeSignal) (now : number)
    (chunk windowedChunk freqs : Float32Array) :
  extractChunk (samples signal) (fftSize (config this)) = Ok chunk ->
  WindowFunctions.applyWindow chunk (windowType (config this)) = Ok windowedChunk ->
  createFrequencyAxis (config this) (sampleRate signal) = Ok freqs ->
  processSignal this signal now =
  Ok {| frequencies := freqs;
        magnitudes := convertToDecibels (computeMagnitudes (computeFFT windowedChunk));
        spectrum_timestamp := now;
        binWidth := (sampleRate signal / fftSize (config this))%js |}.
Proof.
  intros H1 H2 H3. unfold processSignal. rewrite H1. simpl. rewrite H2. simpl.
  rewrite H3. reflexivity.
Qed.

End FFTFacts.

(** ** Chunk extraction *)

Section ChunkExtraction.
Import FFTProcessor WindowFunctions FFTFacts WindowFacts.

Lemma extractChunk_valid (samples : Float32Array) (chunkSize : number) :
  valid_length chunkSize -> exists chunk, extractChunk samples chunkSize = Ok chunk.
Proof.
  intros [n Hn]. unfold extractChunk, new_Float32Array. rewrite Hn.
  cbn [bind]. eexists. reflexivity.
Qed.

Lemma createFrequencyAxis_valid (cfg : DSPConfig) (sampleRate : number) :
  valid_length (fftSize cfg / Real 2)%js ->
  exists freqs, createFrequencyAxis cfg sampleRate = Ok freqs.
Proof.
  intros [n Hn]. unfold createFrequencyAxis, new_Float32Array. rewrite Hn.
  cbn [bind]. eexists. reflexivity.
Qed.

(** With a recognized window and a size the allocations accept, the whole
    pipeline returns a spectrum, whatever the signal. *)
Lemma processSignal_returns (this : processor) (signal : TimeSignal) (now : number) :
  valid_length (fftSize (config this)) ->
  valid_length (fftSize (config this) / Real 2)%js ->
  recognized (windowType (config this)) ->
  exists sp, processSignal this signal now = Ok sp.
Proof.
  intros HF HF2 Hrec.
  destruct (extractChunk_valid (samples signal) _ HF) as [chunk Hc].
  destruct (createFrequencyAxis_valid (config this) (sampleRate signal) HF2)
    as [freqs Hf].
  eexists. eapply processSignal_steps; [exact Hc | | exact Hf].
  apply applyWindow_recognized. assumption.
Qed.

(** C7. Chunk extraction in [processSignal] (fftSize a whole number n the
    typed-array constructor accepts): the chunk is the first n samples of
    the signal followed by zeros up to length exactly n; an index past the
    end of the samples gives the padding zero and not the NaN an
    out-of-range read would give; and neither the extraction nor, with a
    recognized window, the whole of [processSignal] throws, however short
    the signal. *)
Theorem extractChunk_takes_first_fftSize_samples
    (this : processor) (signal : TimeSignal) (now : number) (n : nat) :
  fftSize (config this) = of_nat n ->
  (Z.of_nat n <= max_safe_integer)%Z ->
  exists chunk,
    extractChunk (samples signal) (fftSize (config this)) = Ok chunk /\
    length chunk = n /\
    chunk = take n (samples signal)
            ++ replicate (n - length (samples signal)) zero /\
    (forall i, (i < n)%nat ->
               chunk !! i = Some (default zero (samples signal !! i))) /\
    (recognized (windowType (config this)) ->
     exists sp, processSignal this signal now = Ok sp).
Proof.
  intros HF Hn. eexists. split; [|split; [|split; [reflexivity|split]]].
  - rewrite HF. apply extractChunk_of_nat. assumption.
  - rewrite length_app, length_take, length_replicate. lia.
  - intros i Hi. rewrite lookup_app, lookup_take.
    destruct (decide (i < n)%nat); [|lia].
    destruct (samples signal !! i) as [x|] eqn:E; [reflexivity|].
    apply lookup_ge_None in E. rewrite length_take.
    simpl. apply lookup_replicate_2. lia.
  - intros Hrec. apply processSignal_returns; [| |assumption].
    + rewrite HF. apply valid_length_of_nat. assumption.
    + rewrite HF. exists (n / 2)%nat. apply ToIndex_half. assumption.
Qed.

Lemma extractChunk_takes_first_fftSize_samples_witness :
  exists chunk,
    extractChunk [Real 1; Real 2] (of_nat 4) = Ok chunk /\
    length chunk = 4%nat /\
    chunk = [Real 1; Real 2; zero; zero].
Proof.
  destruct (extractChunk_takes_first_fftSize_samples
              {| config := {| fftSize := of_nat 4; windowType := "hanning";
                              averagingCount := Real 1 |} |}
              {| samples := [Real 1; Real 2]; sampleRate := Real 44100;
                 timestamp := zero; duration := Real 1 |}
              zero 4 eq_refl ltac:(unfold max_safe_integer; lia))
    as (chunk & H1 & H2 & H3 & _).
  exists chunk. split; [exact H1|]. split; [exact H2|]. exact H3.
Defined.

End ChunkExtraction.

(** ** Errors *)

Section Errors.
Import FFTProcessor WindowFunctions FFTFacts WindowFacts.

(** C4. For every chunk and every window kind other than rectangular,
    hanning and hamming, [applyWindow] throws the unknown-window error (the
    result is the exception: no window is substituted and no array is
    returned), and [processSignal] of an engine configured with that kind
    throws the same error, provided the chunk allocation that precedes the
    windowing accepts fftSize. *)
Theorem unrecognized_window_kind_fails (signalChunk : Float32Array) (kind : string) :
  ~ recognized kind ->
  applyWindow signalChunk kind = Throw (unknown_window_type kind) /\
  forall (this : processor) (signal : TimeSignal) (now : number),
    windowType (config this) = kind ->
    valid_length (fftSize (config this)) ->
    processSignal this signal now = Throw (unknown_window_type kind).
Proof.
  intros Hrec. split.
  - apply applyWindow_unrecognized. assumption.
  - intros this signal now Hk HF.
    destruct (extractChunk_valid (samples signal) _ HF) as [chunk Hc].
    unfold processSignal. rewrite Hc. cbn [bind].
    rewrite Hk, applyWindow_unrecognized by assumption. reflexivity.
Qed.

Lemma unrecognized_window_kind_fails_witness :
  applyWindow [Real 1; Real 2] "blackman" = Throw (unknown_window_type "blackman") /\
  processSignal
    {| config := {| fftSize := of_nat 4; windowType := "blackman";
                    averagingCount := Real 1 |} |}
    {| samples := [Real 1; Real 2]; sampleRate := Real 44100;
       timestamp := zero; duration := Real 1 |} zero
  = Throw (unknown_window_type "blackman").
Proof.
  assert (Hrec : ~ recognized "blackman").
  { intros [H | [H | H]]; discriminate H. }
  destruct (unrecognized_window_kind_fails [Real 1; Real 2] "blackman" Hrec)
    as [H1 H2].
  split; [exact H1|].
  apply H2; [reflexivity|].
  apply valid_length_of_nat. unfold max_safe_integer. lia.
Defined.

(** An engine can be built around a negative, a zero and a fractional
    fftSize: the constructor returns it. *)
Lemma constructor_accepts_invalid_fftSize :
  constructor {| fftSize := Real (-1); windowType := "hanning";
                 averagingCount := Real 1 |}
  = Ok {| config := {| fftSize := Real (-1); windowType := "hanning";
                       averagingCount := Real 1 |} |} /\
  constructor {| fftSize := Real 0; windowType := "hanning";
                 averagingCount := Real 1 |}
  = Ok {| config := {| fftSize := Real 0; windowType := "hanning";
                       averagingCount := Real 1 |} |} /\
  constructor {| fftSize := Real 2.5; windowType := "hanning";
                 averagingCount := Real 1 |}
  = Ok {| config := {| fftSize := Real 2.5; windowType := "hanning";
                       averagingCount := Real 1 |} |}.
Proof. repeat split. Qed.

(** C5 (amended). Construction never fails and validates nothing: the
    engine holds the configuration it was given, whatever its fftSize.  A
    fftSize of -1 or less is rejected only when [processSignal] is called, by
    the RangeError of the chunk allocation. *)
Theorem constructor_never_fails (cfg : DSPConfig) :
  constructor cfg = Ok {| config := cfg |} /\
  (forall (r : R) (signal : TimeSignal) (now : number),
      fftSize cfg = Real r -> (r <= -1)%R ->
      processSignal {| config := cfg |} signal now = Throw RangeError).
Proof.
  split; [reflexivity|].
  intros r signal now HF Hr.
  unfold processSignal, extractChunk, new_Float32Array. simpl config.
  rewrite HF, ToIndex_too_small by assumption. reflexivity.
Qed.

Lemma constructor_never_fails_witness :
  processSignal
    {| config := {| fftSize := Real (-1); windowType := "hanning";
                    averagingCount := Real 1 |} |}
    {| samples := []; sampleRate := Real 44100;
       timestamp := zero; duration := zero |} zero
  = Throw RangeError.
Proof.
  apply (proj2 (constructor_never_fails
                  {| fftSize := Real (-1); windowType := "hanning";
                     averagingCount := Real 1 |}) (-1)%R);
    [reflexivity | lra].
Defined.

End Errors.

(** ** Windows of length one *)

Section LengthOne.
Import WindowFunctions WindowFacts.

Lemma hanning_coefficient_1_0 : hanning_coefficient 1 0 = NaN.
Proof.
  unfold hanning_coefficient, of_nat, Math_PI, sub, add, neg, mul, div. simpl INR.
  case_R; reflexivity.
Qed.

Lemma hamming_coefficient_1_0 : hamming_coefficient 1 0 = NaN.
Proof.
  unfold hamming_coefficient, of_nat, Math_PI, sub, add, neg, mul, div. simpl INR.
  case_R; reflexivity.
Qed.

Lemma mul_NaN_r (x : number) : (x * NaN)%js = NaN.
Proof. destruct x; reflexivity. Qed.

(** C6. At length 1 the Hanning and the Hamming window are the single
    coefficient NaN (the angle is 0/0), and [applyWindow] on a chunk of one
    sample returns NaN for it. *)
Theorem window_of_length_one_is_NaN :
  hanning 1 = [NaN] /\ hamming 1 = [NaN] /\
  forall x : number,
    applyWindow [x] "hanning" = Ok [NaN] /\ applyWindow [x] "hamming" = Ok [NaN].
Proof.
  assert (H1 : hanning 1 = [NaN]).
  { rewrite hanning_eq. simpl. rewrite hanning_coefficient_1_0. reflexivity. }
  assert (H2 : hamming 1 = [NaN]).
  { rewrite hamming_eq. simpl. rewrite hamming_coefficient_1_0. reflexivity. }
  split; [exact H1|]. split; [exact H2|].
  intros x. split.
  - rewrite applyWindow_recognized by (right; left; reflexivity).
    unfold window_of. simpl. rewrite H1. simpl.
    rewrite mul_NaN_r. reflexivity.
  - rewrite applyWindow_recognized by (right; right; reflexivity).
    unfold window_of. simpl. rewrite H2. simpl.
    rewrite mul_NaN_r. reflexivity.
Qed.

End LengthOne.

(** ** The transform on a finite chunk *)

Section Transform.
Import FFTProcessor WindowFunctions FFTFacts WindowFacts.

Lemma get_fmap_Real (x : list R) (n : nat) :
  (n < length x)%nat -> get (Real <$> x) n = Real (nth n x 0%R).
Proof.
  intros Hn. unfold get. rewrite list_lookup_fmap.
  destruct (lookup_lt_is_Some_2 x n Hn) as [v Hv].
  rewrite Hv. simpl. f_equal. symmetry. apply nth_lookup_Some with (d := 0%R).
  assumption.
Qed.

Lemma div_Real (a b : R) : b <> 0%R -> (Real a / Real b)%js = Real (a / b).
Proof. intros Hb. unfold div. destruct (Req_dec_T b 0); [contradiction|reflexivity]. Qed.

(** The inner loop of [computeFFT] after [m] rounds. *)
Lemma computeFFT_inner_loop (x : list R) (k m : nat) :
  (m <= length x)%nat ->
  for_n m
    (fun n '(realSum, imagSum) =>
       let angle :=
         (Real (-2) * Math_PI * of_nat k * of_nat n / of_nat (length x))%js in
       ((realSum + get (Real <$> x) n * Math_cos angle)%js,
        (imagSum + get (Real <$> x) n * Math_sin angle)%js))
    (zero, zero)
  = (Real (big_sum m (fun n => nth n x 0
                               * cos (-2 * PI * INR k * INR n / INR (length x)))%R),
     Real (big_sum m (fun n => nth n x 0
                               * sin (-2 * PI * INR k * INR n / INR (length x)))%R)).
Proof.
  induction m as [|m IH]; intros Hm; [reflexivity|].
  rewrite for_n_S, IH by lia. cbv zeta.
  rewrite get_fmap_Real by lia.
  assert (HN : INR (length x) <> 0%R) by (apply not_0_INR; lia).
  unfold of_nat, Math_PI. cbn [mul]. rewrite div_Real by assumption.
  reflexivity.
Qed.

Lemma computeFFT_bin_finite (x : list R) (k : nat) :
  computeFFT_bin (Real <$> x) k =
  {| real := Real (dft_real x k); imag := Real (dft_imag x k) |}.
Proof.
  unfold computeFFT_bin. rewrite length_fmap.
  rewrite computeFFT_inner_loop by lia. reflexivity.
Qed.

Lemma magnitude_finite (a b : R) :
  magnitude {| real := Real a; imag := Real b |} = Real (sqrt (a ^ 2 + b ^ 2)).
Proof.
  unfold magnitude. cbn [real imag mul add Math_sqrt].
  destruct (Rlt_dec (a * a + b * b) 0) as [H|_]; [nra|].
  do 2 f_equal. ring.
Qed.

Lemma ln_floor : ln 1e-10 = (-10 * ln 10)%R.
Proof.
  replace 1e-10%R with (/ 10 ^ 10)%R by lra.
  rewrite ln_Rinv by (apply pow_lt; lra).
  rewrite ln_pow by lra. simpl INR. lra.
Qed.

Lemma ln_10_pos : (0 < ln 10)%R.
Proof. rewrite <- ln_1. apply ln_increasing; lra. Qed.

Lemma decibels_finite (m : R) :
  decibels (Real m) = Real (20 * log10 (Rmax m 1e-10)) /\
  (-200 <= 20 * log10 (Rmax m 1e-10))%R.
Proof.
  assert (Hmax : (1e-10 <= Rmax m 1e-10)%R) by apply Rmax_r.
  split.
  - unfold decibels. cbn [Math_max Math_log10].
    destruct (Rlt_dec (Rmax m 1e-10) 0); [lra|].
    destruct (Req_dec_T (Rmax m 1e-10) 0); [lra|].
    reflexivity.
  - unfold log10. pose proof ln_10_pos as H10.
    assert (Hln : (ln 1e-10 <= ln (Rmax m 1e-10))%R).
    { destruct Hmax as [Hlt | <-]; [|lra].
      left. apply ln_increasing; lra. }
    rewrite ln_floor in Hln.
    assert ((-10 <= ln (Rmax m 1e-10) / ln 10)%R); [|lra].
    apply Rmult_le_reg_r with (ln 10); [exact H10|].
    unfold Rdiv. rewrite Rmult_assoc, Rinv_l by lra. lra.
Qed.




End Transform.

(** ** Finite and non-finite decibel values *)

Section Finiteness.
Import FFTProcessor WindowFunctions FFTFacts WindowFacts.

Lemma finite_list (w : list number) :
  Forall is_finite w -> exists x : list R, w = Real <$> x.
Proof.
  induction 1 as [|v w Hv _ [x ->]].
  - exists []. reflexivity.
  - destruct v as [| s | r]; try contradiction.
    exists (r :: x). reflexivity.
Qed.

Lemma window_angle_finite (n i : nat) :
  n <> 1%nat ->
  exists a, (Real 2 * Math_PI * of_nat i / (of_nat n - Real 1))%js = Real a.
Proof.
  intros Hn. unfold of_nat, Math_PI, sub. cbn [neg add mul].
  assert (INR n + - (1) <> 0)%R.
  { intros H. apply Hn. apply INR_eq. simpl INR. lra. }
  rewrite div_Real by assumption. eexists. reflexivity.
Qed.

Lemma window_of_finite (windowType : string) (n i : nat) :
  windowType = "rectangular"%string \/ n <> 1%nat ->
  (i < n)%nat ->
  exists c, window_of windowType n !! i = Some (Real c).
Proof.
  intros Hwt Hi. unfold window_of.
  destruct (String.eqb_spec windowType "rectangular") as [_|Hne].
  - rewrite rectangular_eq. exists 1%R. apply lookup_replicate_2. assumption.
  - destruct Hwt as [?|Hn]; [contradiction|].
    destruct (window_angle_finite n i Hn) as [a Ha].
    destruct (String.eqb windowType "hanning").
    + rewrite hanning_eq, list_lookup_fmap, lookup_seq_lt by assumption.
      simpl. unfold hanning_coefficient. rewrite Ha.
      eexists. reflexivity.
    + rewrite hamming_eq, list_lookup_fmap, lookup_seq_lt by assumption.
      simpl. unfold hamming_coefficient. rewrite Ha.
      eexists. reflexivity.
Qed.

Lemma applyWindow_finite (chunk windowed : Float32Array) (windowType : string) :
  Forall is_finite chunk ->
  windowType = "rectangular"%string \/ length chunk <> 1%nat ->
  applyWindow chunk windowType = Ok windowed ->
  Forall is_finite windowed.
Proof.
  intros Hc Hwt.
  destruct (recognized_dec windowType) as [Hrec|Hrec].
  - rewrite applyWindow_recognized by assumption. intros [= <-].
    apply Forall_lookup. intros i v. rewrite list_lookup_fmap.
    destruct (decide (i < length chunk)%nat) as [Hi|Hi].
    + rewrite lookup_seq_lt by assumption. simpl. intros [= <-].
      destruct (lookup_lt_is_Some_2 chunk i Hi) as [x Hx].
      pose proof (proj1 (Forall_lookup _ _) Hc i x Hx) as Hfin.
      destruct x as [| s | r]; try contradiction.
      destruct (window_of_finite windowType (length chunk) i Hwt Hi) as [c Hw].
      rewrite (get_lookup _ _ _ Hx), (get_lookup _ _ _ Hw). exact I.
    + rewrite lookup_seq_ge by lia. discriminate.
  - rewrite applyWindow_unrecognized by assumption. discriminate.
Qed.

(** A NaN reaches the caller: with one NaN sample (fftSize 2, rectangular
    window), and with the empty signal when fftSize is 1 and the window is
    hanning. *)
Lemma processSignal_returns_NaN :
  (exists sp,
      processSignal
        {| config := {| fftSize := Real 2; windowType := "rectangular";
                        averagingCount := Real 1 |} |}
        {| samples := [NaN]; sampleRate := Real 44100;
           timestamp := zero; duration := zero |} zero = Ok sp /\
      magnitudes sp = [NaN]) /\
  (exists sp,
      processSignal
        {| config := {| fftSize := Real 1; windowType := "hanning";
                        averagingCount := Real 1 |} |}
        {| samples := []; sampleRate := Real 44100;
           timestamp := zero; duration := zero |} zero = Ok sp /\
      magnitudes sp = [NaN] /\ ~ Forall is_finite (magnitudes sp)).
Proof.
  assert (E2 : Real 2 = of_nat 2) by (unfold of_nat; f_equal; simpl; lra).
  assert (E1 : Real 1 = of_nat 1) by (unfold of_nat; f_equal; simpl; lra).
  assert (Hmax : forall n, (n <= 4)%nat -> (Z.of_nat n <= max_safe_integer)%Z).
  { intros n Hn. unfold max_safe_integer. lia. }
  split.
  - eexists. split.
    + apply processSignal_steps with (chunk := [NaN; zero]);
        cbn [config fftSize windowType samples sampleRate].
      * rewrite E2, extractChunk_of_nat by (apply Hmax; lia). reflexivity.
      * rewrite applyWindow_recognized by (left; reflexivity). reflexivity.
      * rewrite (createFrequencyAxis_of_nat _ _ 2) by (assumption || apply Hmax; lia).
        reflexivity.
    + cbn [magnitudes]. rewrite convertToDecibels_eq, computeMagnitudes_eq, computeFFT_eq.
      reflexivity.
  - eexists. split; [|split].
    + apply processSignal_steps with (chunk := [zero]);
        cbn [config fftSize windowType samples sampleRate].
      * rewrite E1, extractChunk_of_nat by (apply Hmax; lia). reflexivity.
      * rewrite applyWindow_recognized by (right; left; reflexivity).
        unfold window_of. cbn [String.eqb Ascii.eqb Bool.eqb length].
        rewrite hanning_eq. cbn [seq fmap list_fmap].
        rewrite hanning_coefficient_1_0. reflexivity.
      * rewrite (createFrequencyAxis_of_nat _ _ 1) by (assumption || apply Hmax; lia).
        reflexivity.
    + cbn [magnitudes]. rewrite convertToDecibels_eq, computeMagnitudes_eq, computeFFT_eq.
      reflexivity.
    + cbn [magnitudes]. rewrite convertToDecibels_eq, computeMagnitudes_eq, computeFFT_eq.
      intros H. apply Forall_inv in H. exact H.
Qed.

(** *** With the range of binary32 *)

Lemma threshold_pos : (0 < Binary32.overflow_threshold)%R.
Proof. unfold Binary32.overflow_threshold. lra. Qed.

Lemma fround_in_range (r : R) :
  (Rabs r < Binary32.overflow_threshold)%R -> Binary32.fround (Real r) = Real r.
Proof.
  intros H. unfold Binary32.fround.
  destruct (Rle_dec _ _); [lra | reflexivity].
Qed.



(** A loop that stores one converted value per element fills the array with
    the converted values of the same loop without the conversion. *)
Lemma store_loop_stored (f : nat -> number) (m n : nat) :
  for_n m (fun i a => <[i := Binary32.fround (f i)]> a) (zeros n)
  = Binary32.stored (for_n m (fun i a => <[i := f i]> a) (zeros n)).
Proof.
  unfold Binary32.stored. induction m as [|m IH].
  - rewrite !for_n_0. unfold zeros. rewrite fmap_replicate. f_equal.
    symmetry. apply fround_in_range. rewrite Rabs_R0. apply threshold_pos.
  - rewrite !for_n_S, IH, list_fmap_insert. reflexivity.
Qed.

(** So for the two loops that fill the magnitude arrays. *)
Lemma computeMagnitudes_stored (complexData : list ComplexNumber) :
  for_n (length complexData)
    (fun i magnitudes =>
       <[i := Binary32.fround match complexData !! i with
                              | Some c => magnitude c
                              | None => NaN
                              end]> magnitudes)
    (zeros (length complexData))
  = Binary32.stored (computeMagnitudes complexData).
Proof.
  exact (store_loop_stored
           (fun i => match complexData !! i with
                     | Some c => magnitude c
                     | None => NaN
                     end) (length complexData) (length complexData)).
Qed.

Lemma convertToDecibels_stored (magnitudes : Float32Array) :
  for_n (length magnitudes)
    (fun i dB => <[i := Binary32.fround (decibels (get magnitudes i))]> dB)
    (zeros (length magnitudes))
  = Binary32.stored (convertToDecibels magnitudes).
Proof.
  exact (store_loop_stored (fun i => decibels (get magnitudes i))
           (length magnitudes) (length magnitudes)).
Qed.



(** The conversion changes stored values only: [Binary32.processSignal]
    throws what [processSignal] throws, and returns when it returns, with
    arrays of the same lengths and the same bin width. *)
Lemma processSignal_binary32_agrees (this : processor) (signal : TimeSignal)
    (now : number) :
  match processSignal this signal now with
  | Ok sp =>
      exists sp', Binary32.processSignal this signal now = Ok sp' /\
                  length (frequencies sp') = length (frequencies sp) /\
                  length (magnitudes sp') = length (magnitudes sp) /\
                  binWidth sp' = binWidth sp
  | Throw e => Binary32.processSignal this signal now = Throw e
  end.
Proof.
  unfold processSignal, Binary32.processSignal.
  destruct (extractChunk _ _) as [chunk|e]; cbn [bind]; [|reflexivity].
  destruct (recognized_dec (windowType (config this))) as [Hrec|Hrec].
  - rewrite !applyWindow_recognized by assumption. cbn [bind].
    destruct (createFrequencyAxis _ _) as [fr|e]; cbn [bind]; [|reflexivity].
    eexists. split; [reflexivity|]. cbn [frequencies magnitudes binWidth].
    unfold Binary32.stored.
    rewrite !convertToDecibels_eq, !computeMagnitudes_eq, !computeFFT_eq.
    rewrite !length_fmap, !length_seq. auto.
  - rewrite !applyWindow_unrecognized by assumption. reflexivity.
Qed.









End Finiteness.

(** ** Shape of the spectrum *)

Section SpectrumShape.
Import FFTProcessor WindowFunctions FFTFacts WindowFacts.

(** For a whole fftSize n: floor(n/2) frequencies, ceil(n/2) magnitudes. *)
Lemma processSignal_shape (this : processor) (signal : TimeSignal) (now : number)
    (n : nat) :
  fftSize (config this) = of_nat n ->
  (Z.of_nat n <= max_safe_integer)%Z ->
  recognized (windowType (config this)) ->
  exists sp,
    processSignal this signal now = Ok sp /\
    frequencies sp =
      (fun i => (of_nat i * sampleRate signal / of_nat n)%js) <$> seq 0 (n / 2) /\
    length (frequencies sp) = (n / 2)%nat /\
    length (magnitudes sp) = ((n + 1) / 2)%nat.
Proof.
  intros HF Hn Hrec.
  pose proof (extractChunk_of_nat (samples signal) n Hn) as Hc.
  rewrite <- HF in Hc.
  pose proof (applyWindow_recognized
                (take n (samples signal)
                 ++ replicate (n - length (samples signal)) zero) _ Hrec) as Hw.
  pose proof (createFrequencyAxis_of_nat (config this) (sampleRate signal) n HF Hn)
    as Hf.
  eexists. split; [eapply processSignal_steps; eassumption|].
  cbn [frequencies magnitudes]. split; [reflexivity|]. split.
  - rewrite length_fmap, length_seq. reflexivity.
  - rewrite convertToDecibels_eq, computeMagnitudes_eq, computeFFT_eq.
    rewrite !length_fmap, !length_seq.
    rewrite length_app, length_take, length_replicate.
    do 2 f_equal. lia.
Qed.

(** C1, at an odd fftSize. With fftSize 3 (rectangular window, any signal)
    [processSignal] returns one frequency and two magnitudes: the frequency
    axis has floor(3/2) entries and the transform ceil(3/2) bins. *)
Theorem odd_fftSize_lengths_differ (signal : TimeSignal) (now : number) :
  exists sp,
    processSignal
      {| config := {| fftSize := Real 3; windowType := "rectangular";
                      averagingCount := Real 1 |} |} signal now = Ok sp /\
    length (frequencies sp) = 1%nat /\
    length (magnitudes sp) = 2%nat.
Proof.
  assert (E3 : Real 3 = of_nat 3) by (unfold of_nat; f_equal; simpl; lra).
  destruct (processSignal_shape
              {| config := {| fftSize := Real 3; windowType := "rectangular";
                              averagingCount := Real 1 |} |} signal now 3 E3
              ltac:(unfold max_safe_integer; lia) (or_introl eq_refl))
    as (sp & Hsp & _ & Hfl & Hml).
  exists sp. split; [exact Hsp|]. split; assumption.
Qed.



End SpectrumShape.

(** ** The signal generator *)

Section Generator.
Import SignalGenerator.

(** The sample loop of a generator that stores [f i] into slot i. *)
Lemma sample_loop_fill (f : nat -> number)
    (body : nat -> Float32Array -> Float32Array) (x : number) (a : Float32Array) :
  (forall i a, body i a = <[i := f i]> a) ->
  new_Float32Array (Math_floor x) = Ok a ->
  for_lt (Math_floor x) body a = f <$> seq 0 (iterations (Math_floor x)).
Proof.
  intros Hbody Ha. apply new_Float32Array_floor in Ha. subst a.
  unfold for_lt. apply for_n_fill; [exact Hbody | lia].
Qed.

Lemma allocation_of_count (x : number) (n : nat) :
  Math_floor x = of_nat n ->
  (Z.of_nat n <= max_safe_integer)%Z ->
  new_Float32Array (Math_floor x) = Ok (zeros n) /\ iterations (Math_floor x) = n.
Proof.
  intros -> Hn. split.
  - apply new_Float32Array_of_nat. assumption.
  - apply iterations_of_nat.
Qed.

Lemma count_of_zero (a b : R) :
  a = 0%R \/ b = 0%R -> Math_floor (Real a * Real b) = of_nat 0.
Proof.
  intros H. cbn [mul Math_floor]. unfold of_nat. f_equal.
  simpl INR. assert (a * b = 0)%R as -> by (destruct H; subst; ring).
  rewrite (ZfloorZ 0). reflexivity.
Qed.

Lemma createSineWave_eq (frequency amplitude duration sampleRate now : number)
    (a : Float32Array) :
  new_Float32Array (Math_floor (duration * sampleRate)) = Ok a ->
  createSineWave frequency amplitude duration sampleRate now =
  Ok {| samples :=
          (fun i => (amplitude * Math_sin (Real 2 * Math_PI * frequency
                                           * (of_nat i / sampleRate)))%js)
            <$> seq 0 (iterations (Math_floor (duration * sampleRate)));
        sampleRate := sampleRate; timestamp := now; duration := duration |}.
Proof.
  intros Ha. unfold createSineWave. rewrite Ha. cbn [bind]. do 2 f_equal.
  apply sample_loop_fill; [reflexivity | exact Ha].
Qed.

Lemma createWhiteNoise_eq (random : nat -> R)
    (amplitude duration sampleRate now : number) (a : Float32Array) :
  new_Float32Array (Math_floor (duration * sampleRate)) = Ok a ->
  createWhiteNoise random amplitude duration sampleRate now =
  Ok {| samples :=
          (fun i => (amplitude * (Real 2 * Real (random i) - Real 1))%js)
            <$> seq 0 (iterations (Math_floor (duration * sampleRate)));
        sampleRate := sampleRate; timestamp := now; duration := duration |}.
Proof.
  intros Ha. unfold createWhiteNoise. rewrite Ha. cbn [bind]. do 2 f_equal.
  apply sample_loop_fill; [reflexivity | exact Ha].
Qed.

Lemma createChirp_eq (startFreq endFreq duration sampleRate now : number)
    (a : Float32Array) :
  new_Float32Array (Math_floor (duration * sampleRate)) = Ok a ->
  createChirp startFreq endFreq duration sampleRate now =
  Ok {| samples :=
          (fun i => Math_sin (Real 2 * Math_PI
                              * instantFreq startFreq endFreq duration
                                  (of_nat i / sampleRate)
                              * (of_nat i / sampleRate))%js)
            <$> seq 0 (iterations (Math_floor (duration * sampleRate)));
        sampleRate := sampleRate; timestamp := now; duration := duration |}.
Proof.
  intros Ha. unfold createChirp. rewrite Ha. cbn [bind]. do 2 f_equal.
  apply sample_loop_fill; [reflexivity | exact Ha].
Qed.

(** The sample array of [createMultiTone] after the first [j] components. *)
Lemma createMultiTone_outer_loop (frequencies amplitudes : list number)
    (sampleRate bound : number) (m j : nat) :
  iterations bound = m ->
  for_n j
    (fun freqIndex samples =>
       let freq := get frequencies freqIndex in
       let amp := or_default (amplitudes !! freqIndex) (Real 1) in
       for_lt bound
         (fun i samples =>
            let time := (of_nat i / sampleRate)%js in
            <[i := (get samples i
                    + amp * Math_sin (Real 2 * Math_PI * freq * time))%js]>
              samples)
         samples)
    (zeros m)
  = (fun i => sum_components j
                (fun j' => tone sampleRate i
                             (or_default (amplitudes !! j') (Real 1))
                             (get frequencies j')))
      <$> seq 0 m.
Proof.
  intros Hm. induction j as [|j IH].
  - rewrite for_n_0. apply list_eq. intros i.
    rewrite lookup_zeros, list_lookup_fmap.
    destruct (decide (i < m)%nat).
    + rewrite lookup_seq_lt by assumption. reflexivity.
    + rewrite lookup_seq_ge by lia. reflexivity.
  - rewrite for_n_S, IH. cbv zeta. unfold for_lt. rewrite Hm.
    destruct (for_n_update
                (fun i old =>
                   (old + tone sampleRate i
                            (or_default (amplitudes !! j) (Real 1))
                            (get frequencies j))%js)
                (fun i samples =>
                   <[i := (get samples i
                           + or_default (amplitudes !! j) (Real 1)
                             * Math_sin (Real 2 * Math_PI * get frequencies j
                                         * (of_nat i / sampleRate)))%js]> samples)
                ltac:(reflexivity) m
                ((fun i => sum_components j
                             (fun j' => tone sampleRate i
                                          (or_default (amplitudes !! j') (Real 1))
                                          (get frequencies j')))
                   <$> seq 0 m)) as [_ Hlk].
    apply list_eq. intros i. rewrite Hlk.
    rewrite length_fmap, length_seq, !list_lookup_fmap.
    destruct (decide _) as [[Hi _]|Hi].
    + rewrite lookup_seq_lt by assumption.
      unfold get. rewrite list_lookup_fmap, lookup_seq_lt by assumption.
      reflexivity.
    + rewrite lookup_seq_ge by lia. reflexivity.
Qed.

Lemma createMultiTone_eq (frequencies amplitudes : list number)
    (duration sampleRate now : number) (a : Float32Array) :
  new_Float32Array (Math_floor (duration * sampleRate)) = Ok a ->
  createMultiTone frequencies amplitudes duration sampleRate now =
  Ok {| samples :=
          multitone_code_sample frequencies amplitudes sampleRate
            <$> seq 0 (iterations (Math_floor (duration * sampleRate)));
        sampleRate := sampleRate; timestamp := now; duration := duration |}.
Proof.
  intros Ha. unfold createMultiTone. rewrite Ha. cbn [bind]. do 2 f_equal.
  apply new_Float32Array_floor in Ha. subst a.
  apply createMultiTone_outer_loop. reflexivity.
Qed.

(** C10. When floor(duration * sampleRate) is a count n (a whole number the
    typed-array constructor accepts), each of the four generators returns a
    signal of exactly n samples, stamped with the sample rate, the duration
    and the time of generation; for n = 0 the signal is the empty one and
    nothing is thrown. *)
Theorem generators_return_floor_duration_rate_samples
    (n : nat) (seconds rate now : number) :
  Math_floor (seconds * rate) = of_nat n ->
  (Z.of_nat n <= max_safe_integer)%Z ->
  let returns (r : result TimeSignal) :=
    exists sig, r = Ok sig /\ length (samples sig) = n /\
                (n = 0%nat -> samples sig = []) /\
                sampleRate sig = rate /\
                duration sig = seconds /\
                timestamp sig = now in
  (forall frequency amplitude,
      returns (createSineWave frequency amplitude seconds rate now)) /\
  (forall frequencies amplitudes,
      returns (createMultiTone frequencies amplitudes seconds rate now)) /\
  (forall random amplitude,
      returns (createWhiteNoise random amplitude seconds rate now)) /\
  (forall startFreq endFreq,
      returns (createChirp startFreq endFreq seconds rate now)).
Proof.
  intros Hfloor Hn returns.
  destruct (allocation_of_count _ n Hfloor Hn) as [Ha Hit].
  assert (Hlen : forall f : nat -> number, length (f <$> seq 0 n) = n).
  { intros f. rewrite length_fmap, length_seq. reflexivity. }
  assert (Hnil : forall f : nat -> number, n = 0%nat -> f <$> seq 0 n = []).
  { intros f ->. reflexivity. }
  repeat split; intros; eexists;
    (split;
     [first [ eapply createSineWave_eq | eapply createMultiTone_eq
            | eapply createWhiteNoise_eq | eapply createChirp_eq ]; exact Ha
     | cbn [samples sampleRate duration timestamp];
       rewrite Hit; auto 10 ]).
Qed.

Lemma generators_return_floor_duration_rate_samples_witness :
  exists sig,
    createSineWave (Real 1000) (Real 1) (Real 0) (Real 44100) zero = Ok sig /\
    samples sig = [].
Proof.
  destruct (generators_return_floor_duration_rate_samples
              0 (Real 0) (Real 44100) zero
              (count_of_zero 0 44100 (or_introl eq_refl))
              ltac:(unfold max_safe_integer; lia)) as [Hsine _].
  destruct (Hsine (Real 1000) (Real 1)) as (sig & Hsig & _ & Hnil & _).
  exists sig. split; [exact Hsig | exact (Hnil eq_refl)].
Defined.

Lemma instantFreq_endpoints (a b c : R) :
  c <> 0%R ->
  instantFreq (Real a) (Real b) (Real c) zero = Real a /\
  instantFreq (Real a) (Real b) (Real c) (Real c) = Real b.
Proof.
  intros Hc. unfold instantFreq, zero, sub. cbn [neg add].
  rewrite !div_Real by assumption. cbn [mul add].
  split; f_equal; field; assumption.
Qed.

(** C8. Every sample i of the signal [createChirp] returns is
    sin(2 pi instFreq(t) t) with t = i / sampleRate and
    instFreq(t) = startFreq + (endFreq - startFreq) * (t / duration); the
    signal is returned, with n samples, whenever floor(duration * sampleRate)
    is a count n; and for finite frequencies and a finite non-zero duration
    instFreq is startFreq at t = 0 and endFreq at t = duration. *)
Theorem createChirp_samples_follow_linear_sweep
    (startFreq endFreq seconds rate now : number) :
  (forall sig,
      createChirp startFreq endFreq seconds rate now = Ok sig ->
      forall i, (i < length (samples sig))%nat ->
        samples sig !! i =
        Some (Math_sin (Real 2 * Math_PI
                        * instantFreq startFreq endFreq seconds (of_nat i / rate)
                        * (of_nat i / rate))%js)) /\
  (forall n, Math_floor (seconds * rate) = of_nat n ->
             (Z.of_nat n <= max_safe_integer)%Z ->
             exists sig, createChirp startFreq endFreq seconds rate now = Ok sig /\
                         length (samples sig) = n) /\
  (forall t, instantFreq startFreq endFreq seconds t =
             (startFreq + (endFreq - startFreq) * (t / seconds))%js) /\
  (forall a b c, startFreq = Real a -> endFreq = Real b -> seconds = Real c ->
                 c <> 0%R ->
                 instantFreq startFreq endFreq seconds zero = startFreq /\
                 instantFreq startFreq endFreq seconds seconds = endFreq).
Proof.
  split; [|split; [|split]].
  - intros sig Hsig i Hi.
    destruct (new_Float32Array (Math_floor (seconds * rate))) as [a|e] eqn:Ha.
    + rewrite (createChirp_eq _ _ _ _ _ a Ha) in Hsig.
      injection Hsig as <-. cbn [samples] in *.
      rewrite length_fmap, length_seq in Hi.
      rewrite list_lookup_fmap, lookup_seq_lt by assumption. reflexivity.
    + unfold createChirp in Hsig. rewrite Ha in Hsig. discriminate Hsig.
  - intros n Hfloor Hn.
    destruct (allocation_of_count _ n Hfloor Hn) as [Ha Hit].
    eexists. split; [eapply createChirp_eq; exact Ha|].
    cbn [samples]. rewrite length_fmap, length_seq. exact Hit.
  - reflexivity.
  - intros a b c -> -> -> Hc. apply instantFreq_endpoints. assumption.
Qed.

Lemma createChirp_samples_follow_linear_sweep_witness :
  instantFreq (Real 100) (Real 400) (Real 1) zero = Real 100 /\
  instantFreq (Real 100) (Real 400) (Real 1) (Real 1) = Real 400.
Proof.
  apply (proj2 (proj2 (proj2 (createChirp_samples_follow_linear_sweep
                                (Real 100) (Real 400) (Real 1) (Real 44100) zero)))
           100%R 400%R 1%R eq_refl eq_refl eq_refl).
  lra.
Defined.

Lemma floor_1_times_4 : Math_floor (Real 1 * Real 4) = of_nat 4.
Proof.
  cbn [mul Math_floor]. unfold of_nat. f_equal.
  rewrite (Zfloor_eq 4) by lra. simpl INR. lra.
Qed.

(** C9, at an amplitude of 0. [createMultiTone([1], [0], 1, 4)] returns four
    samples of which sample 1 is sin(pi/2) = 1: the amplitude 0 went through
    [|| 1] and became 1.  The sum of the specification, 0 * sin(pi/2), is 0
    there. *)
Theorem createMultiTone_zero_amplitude_becomes_one (now : number) :
  exists sig,
    createMultiTone [Real 1] [Real 0] (Real 1) (Real 4) now = Ok sig /\
    length (samples sig) = 4%nat /\
    samples sig !! 1%nat = Some (Real 1) /\
    multitone_sample [Real 1] [Real 0] (Real 4) 1 = Real 0.
Proof.
  destruct (allocation_of_count _ 4 floor_1_times_4
              ltac:(unfold max_safe_integer; lia)) as [Ha Hit].
  eexists. split; [eapply createMultiTone_eq; exact Ha|].
  cbn [samples]. rewrite Hit. split; [reflexivity|]. split.
  - cbn [seq fmap list_fmap lookup list_lookup].
    unfold multitone_code_sample, tone, get, of_nat, Math_PI.
    cbn [length sum_components lookup list_lookup default Datatypes.id
         or_default truthy].
    destruct (Req_dec_T 0 0) as [_|H]; [|contradiction].
    rewrite div_Real by lra. unfold zero. cbn [mul Math_sin add]. do 2 f_equal.
    replace (2 * PI * 1 * (INR 1 / 4))%R with (PI / 2)%R by (simpl INR; lra).
    rewrite sin_PI2. lra.
  - unfold multitone_sample, tone, get, of_nat, Math_PI.
    cbn [length sum_components lookup list_lookup default Datatypes.id].
    rewrite div_Real by lra. unfold zero. cbn [mul Math_sin add]. f_equal. lra.
Qed.


Lemma sum_components_ext (m : nat) (f g : nat -> number) :
  (forall j, (j < m)%nat -> f j = g j) -> sum_components m f = sum_components m g.
Proof.
  induction m as [|m IH]; intros H; [reflexivity|].
  simpl. rewrite IH by (intros; apply H; lia). rewrite H by lia. reflexivity.
Qed.


End Generator.

(** * Further properties of the windows *)

Section Windows.
Import WindowFunctions WindowFacts.

Lemma mul_1_r (v : number) : (v * Real 1)%js = v.
Proof.
  destruct v as [| s | r]; cbn [mul].
  - reflexivity.
  - destruct (Req_dec_T 1 0); [lra|].
    unfold Rneg. destruct (Rlt_dec 1 0); [lra|]. destruct s; reflexivity.
  - f_equal. ring.
Qed.

(** X1. The rectangular window changes nothing: [applyWindow] returns the
    chunk it was given, non-finite samples included. *)
Theorem applyWindow_rectangular_is_identity (signal : Float32Array) :
  applyWindow signal "rectangular" = Ok signal.
Proof.
  rewrite applyWindow_recognized by (left; reflexivity). f_equal.
  transitivity (Datatypes.id <$> signal); [|apply list_fmap_id].
  apply fmap_seq_lookup. intros i x Hx.
  rewrite (get_lookup _ _ _ Hx).
  unfold window_of. cbn [String.eqb Ascii.eqb Bool.eqb]. rewrite rectangular_eq.
  unfold get. rewrite lookup_replicate_2 by (eapply lookup_lt_Some; eassumption).
  apply mul_1_r.
Qed.

(** X2. Each of the three windows of length N has N coefficients, and a
    windowed chunk has the length of the chunk. *)
Theorem windows_keep_the_length (n : nat) (signal windowed : Float32Array)
    (windowType : string) :
  applyWindow signal windowType = Ok windowed ->
  length (rectangular n) = n /\ length (hanning n) = n /\ length (hamming n) = n /\
  length windowed = length signal.
Proof.
  intros Hw.
  rewrite rectangular_eq, hanning_eq, hamming_eq.
  rewrite length_replicate, !length_fmap, !length_seq.
  repeat split. eapply applyWindow_length. eassumption.
Qed.

Lemma windows_keep_the_length_witness :
  exists windowed,
    applyWindow [Real 1; Real 2] "hanning" = Ok windowed /\
    length (hanning 3) = 3%nat /\ length windowed = 2%nat.
Proof.
  pose proof (applyWindow_recognized [Real 1; Real 2] "hanning"
                (or_intror (or_introl eq_refl))) as Hw.
  eexists. split; [exact Hw|].
  destruct (windows_keep_the_length 3 _ _ _ Hw) as (_ & H & _ & Hlen).
  split; [exact H | exact Hlen].
Defined.

Lemma hanning_coefficient_finite (n i : nat) :
  n <> 1%nat ->
  hanning_coefficient n i =
  Real (0.5 * (1 - cos (2 * PI * INR i / (INR n - 1)))).
Proof.
  intros Hn. unfold hanning_coefficient, of_nat, Math_PI, sub. cbn [neg add mul].
  assert (INR n + - (1) <> 0)%R.
  { intros H. apply Hn. apply INR_eq. simpl INR. lra. }
  rewrite div_Real by assumption. reflexivity.
Qed.

Lemma hamming_coefficient_finite (n i : nat) :
  n <> 1%nat ->
  hamming_coefficient n i =
  Real (0.54 - 0.46 * cos (2 * PI * INR i / (INR n - 1))).
Proof.
  intros Hn. unfold hamming_coefficient, of_nat, Math_PI, sub. cbn [neg add mul].
  assert (INR n + - (1) <> 0)%R.
  { intros H. apply Hn. apply INR_eq. simpl INR. lra. }
  rewrite div_Real by assumption. reflexivity.
Qed.

Lemma cos_2PI_minus (a : R) : cos (2 * PI - a) = cos a.
Proof.
  replace (2 * PI - a)%R with (- a + 2 * INR 1 * PI)%R by (simpl INR; lra).
  rewrite cos_period. apply cos_neg.
Qed.

Lemma window_angle_mirror (n i : nat) :
  (2 <= n)%nat -> (i < n)%nat ->
  (2 * PI * INR (n - 1 - i) / (INR n - 1) =
   2 * PI - 2 * PI * INR i / (INR n - 1))%R.
Proof.
  intros Hn Hi.
  rewrite !minus_INR by lia. simpl INR.
  assert (1 < INR n)%R by (apply (lt_INR 1); lia).
  field. lra.
Qed.

(** X3. For N >= 2 the Hanning and the Hamming window are symmetric:
    coefficient i equals coefficient N - 1 - i. *)
Theorem hanning_hamming_are_symmetric (n i : nat) :
  (2 <= n)%nat -> (i < n)%nat ->
  hanning n !! i = hanning n !! (n - 1 - i)%nat /\
  hamming n !! i = hamming n !! (n - 1 - i)%nat.
Proof.
  intros Hn Hi.
  rewrite hanning_eq, hamming_eq, !list_lookup_fmap.
  rewrite !lookup_seq_lt by lia. cbn [fmap option_fmap option_map Nat.add].
  rewrite !hanning_coefficient_finite, !hamming_coefficient_finite by lia.
  rewrite window_angle_mirror, cos_2PI_minus by assumption.
  split; reflexivity.
Qed.

Lemma hanning_hamming_are_symmetric_witness :
  hanning 4 !! 1%nat = hanning 4 !! 2%nat /\
  hamming 4 !! 1%nat = hamming 4 !! 2%nat.
Proof.
  apply (hanning_hamming_are_symmetric 4 1); lia.
Defined.

(** X4. For N other than 1 every Hanning coefficient is a real in [0, 1]
    and every Hamming coefficient a real in (0, 1]: unlike the Hanning
    window, whose first coefficient is 0 for N >= 2, the Hamming window
    zeroes no sample. *)
Theorem window_coefficients_are_bounded (n : nat) :
  n <> 1%nat ->
  Forall (fun c => exists r, c = Real r /\ (0 <= r <= 1)%R) (hanning n) /\
  Forall (fun c => exists r, c = Real r /\ (0 < r <= 1)%R) (hamming n) /\
  ((2 <= n)%nat -> hanning n !! 0%nat = Some (Real 0)).
Proof.
  intros Hn. split; [|split].
  - rewrite hanning_eq. apply Forall_fmap, Forall_forall. intros i _.
    cbn [compose]. rewrite hanning_coefficient_finite by assumption.
    eexists. split; [reflexivity|].
    pose proof (COS_bound (2 * PI * INR i / (INR n - 1))). lra.
  - rewrite hamming_eq. apply Forall_fmap, Forall_forall. intros i _.
    cbn [compose]. rewrite hamming_coefficient_finite by assumption.
    eexists. split; [reflexivity|].
    pose proof (COS_bound (2 * PI * INR i / (INR n - 1))). lra.
  - intros H2. rewrite hanning_eq, !list_lookup_fmap.
    rewrite !lookup_seq_lt by lia. cbn [fmap option_fmap option_map Nat.add].
    rewrite hanning_coefficient_finite by assumption.
    assert (Ha : (2 * PI * INR 0 / (INR n - 1) = 0)%R).
    { simpl INR. unfold Rdiv. ring. }
    rewrite Ha, cos_0. do 2 f_equal. lra.
Qed.

Lemma window_coefficients_are_bounded_witness :
  Forall (fun c => exists r, c = Real r /\ (0 < r <= 1)%R) (hamming 4) /\
  hanning 4 !! 0%nat = Some (Real 0).
Proof.
  destruct (window_coefficients_are_bounded 4 ltac:(lia)) as (_ & Hham & Hfirst).
  split; [exact Hham | apply Hfirst; lia].
Defined.

Lemma window_of_unit_interval (windowType : string) (n i : nat) :
  windowType = "rectangular"%string \/ n <> 1%nat ->
  (i < n)%nat ->
  exists c, window_of windowType n !! i = Some (Real c) /\ (0 <= c <= 1)%R.
Proof.
  intros Hwt Hi. unfold window_of.
  destruct (String.eqb_spec windowType "rectangular") as [_|Hne].
  - rewrite rectangular_eq. exists 1%R.
    split; [apply lookup_replicate_2; assumption | lra].
  - destruct Hwt as [?|Hn]; [contradiction|].
    pose proof (COS_bound (2 * PI * INR i / (INR n - 1))).
    destruct (String.eqb windowType "hanning").
    + rewrite hanning_eq, list_lookup_fmap, lookup_seq_lt by assumption.
      cbn [fmap option_fmap option_map Nat.add].
      rewrite hanning_coefficient_finite by assumption.
      eexists. split; [reflexivity | lra].
    + rewrite hamming_eq, list_lookup_fmap, lookup_seq_lt by assumption.
      cbn [fmap option_fmap option_map Nat.add].
      rewrite hamming_coefficient_finite by assumption.
      eexists. split; [reflexivity | lra].
Qed.

(** X5. Windowing never amplifies: for a chunk of finite samples and a
    recognized window (rectangular, or a chunk whose length is not 1) the
    windowed chunk is finite, of the same length, and each windowed sample
    is at most the sample in absolute value. *)
Theorem applyWindow_never_amplifies (xs : list R) (windowType : string) :
  recognized windowType ->
  windowType = "rectangular"%string \/ length xs <> 1%nat ->
  exists ws : list R,
    applyWindow (Real <$> xs) windowType = Ok (Real <$> ws) /\
    length ws = length xs /\
    forall i x w, xs !! i = Some x -> ws !! i = Some w -> (Rabs w <= Rabs x)%R.
Proof.
  intros Hrec Hwt.
  pose proof (applyWindow_recognized (Real <$> xs) windowType Hrec) as Hw.
  rewrite length_fmap in Hw.
  assert (Hfin : Forall is_finite (Real <$> xs)).
  { apply Forall_fmap, Forall_forall. intros x _. exact I. }
  assert (Hwt' : windowType = "rectangular"%string \/ length (Real <$> xs) <> 1%nat).
  { rewrite length_fmap. exact Hwt. }
  destruct (finite_list _ (applyWindow_finite _ _ _ Hfin Hwt' Hw)) as [ws Hws].
  exists ws. rewrite Hw, Hws. split; [reflexivity|].
  assert (Hlen : length ws = length xs).
  { apply (f_equal length) in Hws.
    rewrite !length_fmap, length_seq in Hws. symmetry. exact Hws. }
  split; [exact Hlen|].
  intros i x w Hx Hwi.
  assert (Hi : (i < length xs)%nat) by (eapply lookup_lt_Some; eassumption).
  apply (f_equal (fun l => l !! i)) in Hws.
  rewrite !list_lookup_fmap, lookup_seq_lt, Hwi in Hws by assumption.
  cbn [fmap option_fmap option_map Nat.add] in Hws.
  destruct (window_of_unit_interval windowType (length xs) i Hwt Hi)
    as (c & Hc & Hc01).
  rewrite (get_lookup _ _ _ Hc) in Hws.
  unfold get in Hws. rewrite list_lookup_fmap, Hx in Hws.
  cbn [fmap option_fmap option_map default Datatypes.id mul] in Hws.
  injection Hws as Hws. rewrite <- Hws, Rabs_mult.
  rewrite (Rabs_pos_eq c) by lra.
  pose proof (Rabs_pos x). nra.
Qed.

Lemma applyWindow_never_amplifies_witness :
  exists ws : list R,
    applyWindow (Real <$> [1; -2; 3]%R) "hamming" = Ok (Real <$> ws) /\
    length ws = 3%nat.
Proof.
  assert (Hlen3 : length [1; -2; 3]%R <> 1%nat) by (simpl; lia).
  destruct (applyWindow_never_amplifies [1; -2; 3]%R "hamming"
              (or_intror (or_intror eq_refl))
              (or_intror Hlen3)) as (ws & Hw & Hlen & _).
  exists ws. split; [exact Hw | exact Hlen].
Defined.

End Windows.

(** * Further properties of the signal generator *)

Section Signals.
Import SignalGenerator.

(** A sample loop that runs at all has a non-zero duration and sample
    rate. *)
Lemma positive_count (d sr : R) (i : nat) :
  (i < iterations (Math_floor (Real d * Real sr)))%nat ->
  d <> 0%R /\ sr <> 0%R.
Proof.
  cbn [mul Math_floor iterations]. intros Hi.
  assert (Hc : Zceil (IZR (Zfloor (d * sr))) = Zfloor (d * sr))
    by (apply Zceil_eq; lra).
  rewrite Hc in Hi.
  assert (1 <= Zfloor (d * sr))%Z as Hz by lia.
  apply IZR_le in Hz. pose proof (Zfloor_bound (d * sr)) as [Hlo _].
  split; intros ->; lra.
Qed.

Lemma div_of_nat (i : nat) (sr : R) :
  sr <> 0%R -> (of_nat i / Real sr)%js = Real (INR i / sr).
Proof. intros H. unfold of_nat. apply div_Real. assumption. Qed.

Lemma add_zero_l (v : number) : (zero + v)%js = v.
Proof. destruct v as [| s | r]; cbn; try reflexivity. f_equal. ring. Qed.

Lemma Ok_inj {A : Type} (a b : A) : Ok a = Ok b -> a = b.
Proof. intros H. injection H as H. exact H. Qed.

(** What a generator returns is decided by its allocation. *)
Lemma generator_cases (x : number) :
  (exists a, new_Float32Array (Math_floor x) = Ok a) \/
  (exists e, new_Float32Array (Math_floor x) = Throw e).
Proof. destruct (new_Float32Array (Math_floor x)); eauto. Qed.





(** The chirp sample at index i, for finite arguments with a non-zero
    duration and sample rate. *)
Lemma chirp_sample_finite (s e d sr : R) (i : nat) :
  d <> 0%R -> sr <> 0%R ->
  Math_sin (Real 2 * Math_PI
            * instantFreq (Real s) (Real e) (Real d) (of_nat i / Real sr)
            * (of_nat i / Real sr))%js
  = Real (sin (2 * PI * (s + (e - s) * (INR i / sr / d)) * (INR i / sr))).
Proof.
  intros Hd Hsr. rewrite div_of_nat by assumption.
  unfold instantFreq, Math_PI, sub. cbn [neg add].
  rewrite div_Real by assumption. reflexivity.
Qed.

(** X8. A chirp whose end frequency is its start frequency is the sine wave
    of that frequency and amplitude 1: for finite arguments [createChirp]
    and [createSineWave] return the same thing. *)
Theorem createChirp_constant_frequency_is_sine (f d sr : R) (now : number) :
  createChirp (Real f) (Real f) (Real d) (Real sr) now =
  createSineWave (Real f) (Real 1) (Real d) (Real sr) now.
Proof.
  destruct (generator_cases (Real d * Real sr)) as [[arr Ha] | [e He]].
  - rewrite (createChirp_eq _ _ _ _ _ arr Ha), (createSineWave_eq _ _ _ _ _ arr Ha).
    do 2 f_equal. apply list_fmap_ext. intros j i Hi.
    apply lookup_seq in Hi. destruct Hi as [-> Hi]. rewrite Nat.add_0_l in *.
    destruct (positive_count d sr j Hi) as [Hd Hsr].
    rewrite chirp_sample_finite by assumption.
    rewrite div_of_nat by assumption. cbn [Math_PI mul Math_sin].
    f_equal. rewrite Rmult_1_l. f_equal. field. split; assumption.
  - unfold createChirp, createSineWave. rewrite He. reflexivity.
Qed.

(** X9. Whatever the arguments, a sample of the signal [createChirp]
    returns is NaN or a real in [-1, 1]: it is a value of [Math.sin], never
    an infinity and never beyond the unit amplitude. *)
Theorem createChirp_samples_never_exceed_one
    (startFreq endFreq seconds rate now : number) (sig : TimeSignal) :
  createChirp startFreq endFreq seconds rate now = Ok sig ->
  Forall (fun v => v = NaN \/ exists r, v = Real r /\ (-1 <= r <= 1)%R)
    (samples sig).
Proof.
  intros Hsig.
  destruct (generator_cases (seconds * rate)) as [[arr Ha] | [x He]].
  2:{ unfold createChirp in Hsig. rewrite He in Hsig. discriminate Hsig. }
  rewrite (createChirp_eq _ _ _ _ _ arr Ha) in Hsig.
  apply Ok_inj in Hsig. rewrite <- Hsig. cbn [samples].
  apply Forall_fmap, Forall_forall. intros i _. cbn [compose].
  destruct (Real 2 * Math_PI
            * instantFreq startFreq endFreq seconds (of_nat i / rate)
            * (of_nat i / rate))%js as [| s | r]; cbn [Math_sin].
  - left. reflexivity.
  - left. reflexivity.
  - right. eexists. split; [reflexivity | apply SIN_bound].
Qed.

Lemma createChirp_samples_never_exceed_one_witness :
  exists sig,
    createChirp (Real 1) (Real 3) (Real 1) (Real 4) zero = Ok sig /\
    Forall (fun v => v = NaN \/ exists r, v = Real r /\ (-1 <= r <= 1)%R)
      (samples sig).
Proof.
  destruct (allocation_of_count _ 4 floor_1_times_4
              ltac:(unfold max_safe_integer; lia)) as [Ha _].
  pose proof (createChirp_eq (Real 1) (Real 3) (Real 1) (Real 4) zero _ Ha)
    as Hsig.
  eexists. split; [exact Hsig|].
  exact (createChirp_samples_never_exceed_one _ _ _ _ _ _ Hsig).
Defined.

Lemma createMultiTone_ext (frequencies amplitudes amplitudes' : list number)
    (seconds rate now : number) :
  (forall j, (j < length frequencies)%nat ->
             or_default (amplitudes !! j) (Real 1)
             = or_default (amplitudes' !! j) (Real 1)) ->
  createMultiTone frequencies amplitudes seconds rate now =
  createMultiTone frequencies amplitudes' seconds rate now.
Proof.
  intros Hamp.
  destruct (generator_cases (seconds * rate)) as [[arr Ha] | [e He]].
  - rewrite !(createMultiTone_eq _ _ _ _ _ arr Ha). do 2 f_equal.
    apply list_fmap_ext. intros _ i _.
    unfold multitone_code_sample. apply sum_components_ext.
    intros j Hj. rewrite Hamp by assumption. reflexivity.
  - unfold createMultiTone. rewrite He. reflexivity.
Qed.

(** X10. A multi-tone of one component whose amplitude is neither 0 nor NaN
    is the sine wave of that frequency and amplitude: [createMultiTone] and
    [createSineWave] return the same thing. *)
Theorem createMultiTone_single_component_is_sine
    (f a seconds rate now : number) :
  truthy a = true ->
  createMultiTone [f] [a] seconds rate now =
  createSineWave f a seconds rate now.
Proof.
  intros Ha.
  destruct (generator_cases (seconds * rate)) as [[arr Harr] | [e He]].
  - rewrite (createMultiTone_eq _ _ _ _ _ arr Harr),
            (createSineWave_eq _ _ _ _ _ arr Harr).
    do 2 f_equal. apply list_fmap_ext. intros _ i _.
    unfold multitone_code_sample, tone, get.
    cbn [length sum_components lookup list_lookup default Datatypes.id or_default].
    rewrite Ha. apply add_zero_l.
  - unfold createMultiTone, createSineWave. rewrite He. reflexivity.
Qed.

Lemma createMultiTone_single_component_is_sine_witness :
  createMultiTone [Real 1000] [Real 0.5] (Real 1) (Real 4) zero =
  createSineWave (Real 1000) (Real 0.5) (Real 1) (Real 4) zero.
Proof.
  apply createMultiTone_single_component_is_sine.
  unfold truthy. destruct (Req_dec_T 0.5 0); [lra | reflexivity].
Defined.

(** X11. Amplitudes beyond the number of frequencies are ignored. *)
Theorem createMultiTone_ignores_surplus_amplitudes
    (frequencies amplitudes surplus : list number) (seconds rate now : number) :
  (length frequencies <= length amplitudes)%nat ->
  createMultiTone frequencies (amplitudes ++ surplus) seconds rate now =
  createMultiTone frequencies amplitudes seconds rate now.
Proof.
  intros Hlen. apply createMultiTone_ext. intros j Hj.
  rewrite lookup_app_l by lia. reflexivity.
Qed.

Lemma createMultiTone_ignores_surplus_amplitudes_witness :
  createMultiTone [Real 1000] ([Real 0.5] ++ [Real 7]) (Real 1) (Real 4) zero =
  createMultiTone [Real 1000] [Real 0.5] (Real 1) (Real 4) zero.
Proof.
  apply createMultiTone_ignores_surplus_amplitudes. simpl. lia.
Defined.

(** X12. A supplied amplitude of 0 or NaN counts as the amplitude 1:
    replacing every such amplitude by 1 does not change what
    [createMultiTone] returns. *)
Theorem createMultiTone_falsy_amplitude_counts_as_one
    (frequencies amplitudes : list number) (seconds rate now : number) :
  createMultiTone frequencies amplitudes seconds rate now =
  createMultiTone frequencies
    ((fun a => if truthy a then a else Real 1) <$> amplitudes) seconds rate now.
Proof.
  apply createMultiTone_ext. intros j _. rewrite list_lookup_fmap.
  destruct (amplitudes !! j) as [a|]; [|reflexivity].
  cbn [fmap option_fmap option_map or_default].
  destruct (truthy a) eqn:Ht.
  - rewrite Ht. reflexivity.
  - destruct (truthy (Real 1)); reflexivity.
Qed.

(** X13. Without frequencies the multi-tone is silence: every sample is 0. *)
Theorem createMultiTone_without_frequencies_is_silence
    (amplitudes : list number) (seconds rate now : number) (sig : TimeSignal) :
  createMultiTone [] amplitudes seconds rate now = Ok sig ->
  Forall (fun v => v = zero) (samples sig).
Proof.
  intros Hsig.
  destruct (generator_cases (seconds * rate)) as [[arr Ha] | [e He]].
  2:{ unfold createMultiTone in Hsig. rewrite He in Hsig. discriminate Hsig. }
  rewrite (createMultiTone_eq _ _ _ _ _ arr Ha) in Hsig.
  apply Ok_inj in Hsig. rewrite <- Hsig. cbn [samples].
  apply Forall_fmap, Forall_forall. intros i _. reflexivity.
Qed.

Lemma createMultiTone_without_frequencies_is_silence_witness :
  exists sig,
    createMultiTone [] [Real 1] (Real 1) (Real 4) zero = Ok sig /\
    Forall (fun v => v = zero) (samples sig).
Proof.
  destruct (allocation_of_count _ 4 floor_1_times_4
              ltac:(unfold max_safe_integer; lia)) as [Ha _].
  pose proof (createMultiTone_eq [] [Real 1] (Real 1) (Real 4) zero _ Ha) as Hsig.
  eexists. split; [exact Hsig|].
  exact (createMultiTone_without_frequencies_is_silence _ _ _ _ _ Hsig).
Defined.


End Signals.

(** * Further properties of the spectral transform *)

Section Spectrum.
Import FFTProcessor WindowFunctions FFTFacts WindowFacts.


Lemma big_sum_ext (N : nat) (f g : nat -> R) :
  (forall n, (n < N)%nat -> f n = g n) -> big_sum N f = big_sum N g.
Proof.
  induction N as [|N IH]; intros H; [reflexivity|].
  simpl. rewrite IH by (intros; apply H; lia). rewrite H by lia. reflexivity.
Qed.

Lemma big_sum_zero (N : nat) : big_sum N (fun _ => 0%R) = 0%R.
Proof. induction N as [|N IH]; simpl; [reflexivity | rewrite IH; ring]. Qed.


Lemma nth_replicate_zero (n i : nat) : nth i (replicate n 0%R) 0%R = 0%R.
Proof.
  rewrite nth_lookup. destruct (replicate n 0%R !! i) as [y|] eqn:E; [|reflexivity].
  apply lookup_replicate_1 in E. destruct E as [-> _]. reflexivity.
Qed.

Lemma decibels_zero : decibels (Real 0) = Real (-200).
Proof.
  rewrite (proj1 (decibels_finite 0)). f_equal.
  rewrite Rmax_right by lra. unfold log10. rewrite ln_floor.
  pose proof ln_10_pos. field. lra.
Qed.

Lemma silent_bin (n k : nat) :
  decibels (magnitude (computeFFT_bin (Real <$> replicate n 0%R) k)) = Real (-200).
Proof.
  rewrite computeFFT_bin_finite, magnitude_finite.
  assert (Hre : dft_real (replicate n 0%R) k = 0%R).
  { unfold dft_real.
    transitivity (big_sum (length (replicate n 0%R)) (fun _ => 0%R));
      [|apply big_sum_zero].
    apply big_sum_ext. intros j _. rewrite nth_replicate_zero. ring. }
  assert (Him : dft_imag (replicate n 0%R) k = 0%R).
  { unfold dft_imag.
    transitivity (big_sum (length (replicate n 0%R)) (fun _ => 0%R));
      [|apply big_sum_zero].
    apply big_sum_ext. intros j _. rewrite nth_replicate_zero. ring. }
  rewrite Hre, Him.
  replace (0 ^ 2 + 0 ^ 2)%R with 0%R by ring.
  rewrite sqrt_0. apply decibels_zero.
Qed.

(** The windowed chunk of a silent chunk is silent. *)
Lemma applyWindow_silence (n : nat) (windowType : string) :
  recognized windowType ->
  windowType = "rectangular"%string \/ n <> 1%nat ->
  applyWindow (replicate n zero) windowType = Ok (Real <$> replicate n 0%R).
Proof.
  intros Hrec Hwt.
  rewrite applyWindow_recognized by assumption. f_equal.
  rewrite length_replicate. apply list_eq. intros i.
  rewrite !list_lookup_fmap.
  destruct (decide (i < n)%nat) as [Hi|Hi].
  - rewrite lookup_seq_lt, lookup_replicate_2 by assumption.
    cbn [fmap option_fmap option_map Nat.add]. f_equal.
    destruct (window_of_unit_interval windowType n i Hwt Hi) as (c & Hc & _).
    rewrite (get_lookup _ _ _ Hc).
    unfold get. rewrite lookup_replicate_2 by assumption.
    unfold zero. cbn [default Datatypes.id mul]. f_equal. ring.
  - rewrite lookup_seq_ge by lia.
    assert (n <= i)%nat as Hge by lia.
    rewrite (proj1 (lookup_replicate_None n 0%R i) Hge). reflexivity.
Qed.

(** X15. Silence gives -200 dB in every bin: when the first fftSize samples
    of the signal are all 0 (the empty signal included), fftSize is a whole
    number n and the window is rectangular or n is not 1, [processSignal]
    returns ceil(n/2) magnitudes, each equal to 20 log10(1e-10) = -200. *)
Theorem silence_gives_minus_200_dB
    (this : processor) (signal : TimeSignal) (now : number) (n : nat) :
  fftSize (config this) = of_nat n ->
  (Z.of_nat n <= max_safe_integer)%Z ->
  recognized (windowType (config this)) ->
  windowType (config this) = "rectangular"%string \/ n <> 1%nat ->
  Forall (fun v => v = zero) (take n (samples signal)) ->
  exists sp,
    processSignal this signal now = Ok sp /\
    length (magnitudes sp) = ((n + 1) / 2)%nat /\
    Forall (fun v => v = Real (-200)) (magnitudes sp).
Proof.
  intros HF Hn Hrec Hwt Hzero.
  pose proof (extractChunk_of_nat (samples signal) n Hn) as Hc.
  rewrite <- HF in Hc.
  assert (Hchunk : take n (samples signal)
                   ++ replicate (n - length (samples signal)) zero
                   = replicate n zero).
  { symmetry. apply replicate_as_Forall. split.
    - rewrite length_app, length_take, length_replicate. lia.
    - apply Forall_app. split.
      + eapply Forall_impl; [exact Hzero|]. intros v ->. reflexivity.
      + apply Forall_replicate. reflexivity. }
  rewrite Hchunk in Hc.
  pose proof (applyWindow_silence n _ Hrec Hwt) as Hw.
  pose proof (createFrequencyAxis_of_nat (config this) (sampleRate signal) n HF Hn)
    as Hf.
  eexists. split; [eapply processSignal_steps; eassumption|].
  cbn [magnitudes].
  rewrite convertToDecibels_eq, computeMagnitudes_eq, computeFFT_eq.
  rewrite !length_fmap, length_seq, length_replicate. split; [reflexivity|].
  apply Forall_fmap, Forall_fmap, Forall_fmap, Forall_forall. intros k _.
  cbn [compose]. apply silent_bin.
Qed.

Lemma silence_gives_minus_200_dB_witness :
  exists sp,
    processSignal
      {| config := {| fftSize := of_nat 4; windowType := "hanning";
                      averagingCount := Real 1 |} |}
      {| samples := []; sampleRate := Real 44100;
         timestamp := zero; duration := zero |} zero = Ok sp /\
    length (magnitudes sp) = 2%nat /\
    Forall (fun v => v = Real (-200)) (magnitudes sp).
Proof.
  assert (H41 : 4%nat <> 1%nat) by lia.
  exact (silence_gives_minus_200_dB
           {| config := {| fftSize := of_nat 4; windowType := "hanning";
                           averagingCount := Real 1 |} |}
           {| samples := []; sampleRate := Real 44100;
              timestamp := zero; duration := zero |} zero 4
           eq_refl ltac:(unfold max_safe_integer; lia)
           (or_intror (or_introl eq_refl)) (or_intror H41) (Forall_nil_2 _)).
Defined.



(** X17. The spectrum depends on the first fftSize samples only, and on
    nothing of the configuration but fftSize and windowType: two engines
    with the same whole fftSize n and window, run on two signals with the
    same sample rate and the same first n samples, return the same thing,
    whatever averagingCount, the later samples, the durations and the
    timestamps of the signals are. *)
Theorem spectrum_depends_on_first_fftSize_samples
    (this this' : processor) (signal signal' : TimeSignal) (now : number)
    (n : nat) :
  fftSize (config this) = of_nat n ->
  fftSize (config this') = of_nat n ->
  (Z.of_nat n <= max_safe_integer)%Z ->
  windowType (config this) = windowType (config this') ->
  sampleRate signal = sampleRate signal' ->
  take n (samples signal) = take n (samples signal') ->
  processSignal this signal now = processSignal this' signal' now.
Proof.
  intros HF HF' Hn Hwt Hrate Htake.
  assert (Hlen : (n - length (samples signal) = n - length (samples signal'))%nat).
  { apply (f_equal length) in Htake. rewrite !length_take in Htake. lia. }
  unfold processSignal, createFrequencyAxis.
  rewrite HF, HF', !extractChunk_of_nat by assumption.
  rewrite Htake, Hlen, Hwt, Hrate. reflexivity.
Qed.

Lemma spectrum_depends_on_first_fftSize_samples_witness :
  processSignal
    {| config := {| fftSize := of_nat 2; windowType := "hanning";
                    averagingCount := Real 1 |} |}
    {| samples := [Real 1; Real 2; Real 3]; sampleRate := Real 44100;
       timestamp := zero; duration := Real 1 |} zero
  = processSignal
      {| config := {| fftSize := of_nat 2; windowType := "hanning";
                      averagingCount := Real 8 |} |}
      {| samples := [Real 1; Real 2; Real 9; Real 9]; sampleRate := Real 44100;
         timestamp := Real 5; duration := Real 2 |} zero.
Proof.
  apply (spectrum_depends_on_first_fftSize_samples _ _ _ _ _ 2);
    try reflexivity.
  unfold max_safe_integer. lia.
Defined.






Lemma ToIndex_below_one (r : R) : (-1 < r < 1)%R -> ToIndex (Real r) = Ok 0%nat.
Proof.
  intros [Hlo Hhi]. unfold ToIndex, Ztrunc.
  destruct (Rlt_dec r 0).
  - rewrite (Zceil_eq 0) by lra. reflexivity.
  - rewrite (Zfloor_eq 0) by lra. reflexivity.
Qed.

(** X20. A fftSize strictly between -1 and 1 (0 included) is not rejected:
    with a recognized window [processSignal] returns the empty spectrum, no
    frequencies and no magnitudes. *)
Theorem fftSize_below_one_gives_empty_spectrum
    (this : processor) (signal : TimeSignal) (now : number) (r : R) :
  fftSize (config this) = Real r ->
  (-1 < r < 1)%R ->
  recognized (windowType (config this)) ->
  exists sp,
    processSignal this signal now = Ok sp /\
    frequencies sp = [] /\ magnitudes sp = [].
Proof.
  intros HF Hr Hrec.
  assert (Hstore : forall (f : nat -> number) (m : nat),
             for_n m (fun i a => <[i := f i]> a) (zeros 0) = []).
  { intros f m. apply nil_length_inv.
    rewrite (proj1 (for_n_store f _ ltac:(reflexivity) m (zeros 0))).
    reflexivity. }
  assert (Hc : extractChunk (samples signal) (fftSize (config this)) = Ok []).
  { unfold extractChunk, new_Float32Array.
    rewrite HF, ToIndex_below_one by assumption. cbn [bind]. f_equal.
    apply Hstore. }
  assert (Hw : applyWindow [] (windowType (config this)) = Ok []).
  { rewrite applyWindow_recognized by assumption. reflexivity. }
  assert (Hf : createFrequencyAxis (config this) (sampleRate signal) = Ok []).
  { unfold createFrequencyAxis, new_Float32Array.
    rewrite HF, div_2, ToIndex_below_one by lra. cbn [bind]. f_equal.
    apply Hstore. }
  eexists. split; [eapply processSignal_steps; eassumption|].
  cbn [frequencies magnitudes]. split; [reflexivity|].
  rewrite convertToDecibels_eq, computeMagnitudes_eq, computeFFT_eq. reflexivity.
Qed.

Lemma fftSize_below_one_gives_empty_spectrum_witness :
  exists sp,
    processSignal
      {| config := {| fftSize := Real 0; windowType := "hanning";
                      averagingCount := Real 1 |} |}
      {| samples := [Real 1; Real 2]; sampleRate := Real 44100;
         timestamp := zero; duration := zero |} zero = Ok sp /\
    frequencies sp = [] /\ magnitudes sp = [].
Proof.
  apply (fftSize_below_one_gives_empty_spectrum _ _ _ 0%R);
    [reflexivity | lra | right; left; reflexivity].
Defined.

End Spectrum.

(** * Properties of the display and of the application *)

Section Display.
Import SpectrumDisplay.

Lemma for_n_append {A : Type} (f : nat -> A) (m : nat) (start : list A) :
  for_n m (fun i calls => calls ++ [f i]) start = start ++ (f <$> seq 0 m).
Proof.
  induction m as [|m IH].
  - rewrite for_n_0. symmetry. apply app_nil_r.
  - rewrite for_n_S, IH, seq_S, fmap_app, app_assoc. reflexivity.
Qed.

Lemma for_n_ext {S : Type} (body body' : nat -> S -> S) (m : nat) (s : S) :
  (forall i x, body i x = body' i x) -> for_n m body s = for_n m body' s.
Proof.
  intros H. induction m as [|m IH]; [reflexivity|].
  rewrite !for_n_S, IH. apply H.
Qed.

(** The calls of [drawSpectrum] for a spectrum with at least one bin. *)
Lemma drawSpectrum_calls (data : SpectrumData) (width height minDb maxDb : number) :
  magnitudes data <> [] ->
  drawSpectrum data width height minDb maxDb =
  [set_strokeStyle "#00ff00"; set_lineWidth (Real 2); beginPath]
  ++ ((fun i => (if (i =? 0)%nat then moveTo else lineTo)
                  (spectrum_x data width i)
                  (spectrum_y data height minDb maxDb i))
        <$> seq 0 (length (magnitudes data)))
  ++ [stroke; set_fillStyle "rgba(0, 255, 0, 0.1)";
      lineTo width height; lineTo (Real 0) height; closePath; fill].
Proof.
  intros Hne. unfold drawSpectrum.
  destruct (Nat.eqb_spec (length (magnitudes data)) 0) as [H0|_].
  { apply nil_length_inv in H0. contradiction. }
  cbv zeta. rewrite app_assoc. f_equal.
  rewrite <- for_n_append.
  apply for_n_ext. intros i calls. destruct (i =? 0)%nat; reflexivity.
Qed.

Lemma spectrum_x_finite (data : SpectrumData) (w : R) (i : nat) :
  magnitudes data <> [] ->
  spectrum_x data (Real w) i =
  Real (INR i / INR (length (magnitudes data)) * w).
Proof.
  intros Hne. unfold spectrum_x, of_nat.
  assert (INR (length (magnitudes data)) <> 0)%R.
  { apply not_0_INR. intros H0. apply nil_length_inv in H0. contradiction. }
  rewrite div_Real by assumption. reflexivity.
Qed.

Lemma spectrum_y_finite (data : SpectrumData) (h lo hi m : R) (i : nat) :
  magnitudes data !! i = Some (Real m) ->
  lo <> hi ->
  spectrum_y data (Real h) (Real lo) (Real hi) i =
  Real (h - Rmax 0 (Rmin 1 ((m - lo) / (hi - lo))) * h).
Proof.
  intros Hm Hne. unfold spectrum_y, sub.
  rewrite (get_lookup _ _ _ Hm). cbn [neg add].
  rewrite div_Real by lra. reflexivity.
Qed.

Lemma clamp_unit (v : R) : (0 <= Rmax 0 (Rmin 1 v) <= 1)%R.
Proof.
  split; [apply Rmax_l|].
  apply Rmax_lub; [lra | apply Rmin_l].
Qed.

(** X21. The curve stays on the canvas: for a spectrum of finite magnitudes,
    a canvas of non-negative width and height and a display range with
    minDb different from maxDb, every point [drawSpectrum] passes to
    [moveTo] or [lineTo] has finite coordinates with 0 <= x <= width and
    0 <= y <= height; for a spectrum without bins nothing is drawn. *)
Theorem drawSpectrum_stays_on_the_canvas
    (data : SpectrumData) (ms : list R) (w h lo hi : R) :
  magnitudes data = Real <$> ms ->
  (0 <= w)%R -> (0 <= h)%R -> lo <> hi ->
  Forall (in_canvas w h) (drawSpectrum data (Real w) (Real h) (Real lo) (Real hi)) /\
  (ms = [] -> drawSpectrum data (Real w) (Real h) (Real lo) (Real hi) = []).
Proof.
  intros Hms Hw Hh Hne. split.
  2:{ intros ->. unfold drawSpectrum. rewrite Hms. reflexivity. }
  destruct (decide (magnitudes data = [])) as [Hnil|Hnil].
  { unfold drawSpectrum. rewrite Hnil. constructor. }
  rewrite (drawSpectrum_calls _ _ _ _ _ Hnil).
  apply Forall_app. split; [repeat constructor|].
  apply Forall_app. split.
  - apply Forall_lookup. intros j call. rewrite list_lookup_fmap.
    destruct (seq 0 _ !! j) as [i|] eqn:Hi; [|discriminate].
    apply lookup_seq in Hi. destruct Hi as [-> Hi]. rewrite Nat.add_0_l.
    cbn [fmap option_fmap option_map]. intros Hcall.
    apply (inj Some) in Hcall. rewrite <- Hcall. clear Hcall call.
    destruct (lookup_lt_is_Some_2 _ _ Hi) as [v Hv].
    assert (Hv' := Hv). rewrite Hms, list_lookup_fmap in Hv'.
    destruct (ms !! j) as [m|]; [|discriminate]. injection Hv' as <-.
    rewrite (spectrum_x_finite _ _ _ Hnil), (spectrum_y_finite _ _ _ _ _ _ Hv Hne).
    assert (Hlen : (0 < INR (length (magnitudes data)))%R) by (apply lt_0_INR; lia).
    assert (Hx : (0 <= INR j / INR (length (magnitudes data)) <= 1)%R).
    { pose proof (pos_INR j). apply lt_INR in Hi. split.
      - apply Rmult_le_pos; [lra | left; apply Rinv_0_lt_compat; lra].
      - apply Rmult_le_reg_r with (INR (length (magnitudes data))); [lra|].
        unfold Rdiv. rewrite Rmult_assoc, Rinv_l by lra. lra. }
    pose proof (clamp_unit ((m - lo) / (hi - lo))) as Hc.
    assert (Hpoint : exists a b,
               Real (INR j / INR (length (magnitudes data)) * w) = Real a /\
               Real (h - Rmax 0 (Rmin 1 ((m - lo) / (hi - lo))) * h) = Real b /\
               (0 <= a <= w)%R /\ (0 <= b <= h)%R).
    { eexists _, _. split; [reflexivity|]. split; [reflexivity|]. split; nra. }
    destruct (j =? 0)%nat; exact Hpoint.
  - repeat constructor; eexists _, _;
      (split; [reflexivity|]; split; [reflexivity|]; lra).
Qed.

Lemma drawSpectrum_stays_on_the_canvas_witness :
  Forall (in_canvas 800 400)
    (drawSpectrum {| frequencies := [Real 0; Real 5]; magnitudes := Real <$> [-200; 3]%R;
                     spectrum_timestamp := zero; binWidth := Real 5 |}
       (Real 800) (Real 400) (Real (-100)) (Real 0)).
Proof.
  apply (proj1 (drawSpectrum_stays_on_the_canvas
                  {| frequencies := [Real 0; Real 5];
                     magnitudes := Real <$> [-200; 3]%R;
                     spectrum_timestamp := zero; binWidth := Real 5 |}
                  [-200; 3]%R 800 400 (-100) 0
                  eq_refl ltac:(lra) ltac:(lra) ltac:(lra))).
Defined.

(** X22. Where a bin is drawn: for a display range minDb < maxDb and a
    non-empty spectrum, call number 3 + i of [drawSpectrum] is the point of
    bin i ([moveTo] for bin 0, [lineTo] after it) at
    x = i / bins * width and
    y = height - clamp((magnitude - minDb) / (maxDb - minDb)) * height;
    a magnitude of maxDb or more is drawn at the top (y = 0) and one of
    minDb or less at the bottom (y = height). *)
Theorem drawSpectrum_draws_each_bin_clamped
    (data : SpectrumData) (w h lo hi m : R) (i : nat) :
  magnitudes data !! i = Some (Real m) ->
  (lo < hi)%R ->
  exists y,
    drawSpectrum data (Real w) (Real h) (Real lo) (Real hi) !! (3 + i)%nat =
      Some ((if (i =? 0)%nat then moveTo else lineTo)
              (Real (INR i / INR (length (magnitudes data)) * w)) (Real y)) /\
    y = (h - Rmax 0 (Rmin 1 ((m - lo) / (hi - lo))) * h)%R /\
    (hi <= m -> y = 0)%R /\
    (m <= lo -> y = h)%R.
Proof.
  intros Hm Hlt.
  assert (Hnil : magnitudes data <> []).
  { intros H0. rewrite H0 in Hm. discriminate Hm. }
  assert (Hi : (i < length (magnitudes data))%nat)
    by (eapply lookup_lt_Some; eassumption).
  eexists. split; [|split; [reflexivity|split]].
  - rewrite (drawSpectrum_calls _ _ _ _ _ Hnil).
    change (3 + i)%nat with (length [set_strokeStyle "#00ff00";
                                     set_lineWidth (Real 2); beginPath] + i)%nat.
    rewrite lookup_app_r by lia.
    replace (length [set_strokeStyle "#00ff00"; set_lineWidth (Real 2); beginPath]
             + i - length [set_strokeStyle "#00ff00"; set_lineWidth (Real 2);
                           beginPath])%nat with i by (simpl; lia).
    rewrite lookup_app_l by (rewrite length_fmap, length_seq; exact Hi).
    rewrite list_lookup_fmap, lookup_seq_lt by exact Hi.
    cbn [fmap option_fmap option_map Nat.add].
    rewrite (spectrum_x_finite _ _ _ Hnil).
    rewrite (spectrum_y_finite _ _ _ _ _ _ Hm) by lra. reflexivity.
  - intros Hhi.
    assert (1 <= (m - lo) / (hi - lo))%R.
    { apply Rmult_le_reg_r with (hi - lo)%R; [lra|].
      unfold Rdiv. rewrite Rmult_assoc, Rinv_l by lra. lra. }
    rewrite Rmin_left, Rmax_right by lra. ring.
  - intros Hlo.
    assert ((m - lo) / (hi - lo) <= 0)%R.
    { apply Rmult_le_reg_r with (hi - lo)%R; [lra|].
      unfold Rdiv. rewrite Rmult_assoc, Rinv_l by lra. lra. }
    rewrite Rmin_right, Rmax_left by lra. ring.
Qed.

Lemma drawSpectrum_draws_each_bin_clamped_witness :
  exists y,
    drawSpectrum {| frequencies := [Real 0]; magnitudes := [Real (-200)];
                    spectrum_timestamp := zero; binWidth := Real 5 |}
      (Real 800) (Real 400) (Real (-100)) (Real 0) !! 3%nat =
      Some (moveTo (Real (INR 0 / INR 1 * 800)) (Real y)) /\
    y = 400%R.
Proof.
  destruct (drawSpectrum_draws_each_bin_clamped
              {| frequencies := [Real 0]; magnitudes := [Real (-200)];
                 spectrum_timestamp := zero; binWidth := Real 5 |}
              800 400 (-100) 0 (-200) 0 eq_refl ltac:(lra))
    as (y & Hcall & _ & _ & Hbottom).
  exists y. split; [exact Hcall|]. apply Hbottom. lra.
Defined.

End Display.

Section Application.
Import SignalGenerator FFTProcessor FFTFacts WindowFacts.

(** The rest of the callback once the signal is there. *)
Lemma analysis_of_generated_signal (generated : result TimeSignal)
    (signal : TimeSignal) (dspConfig : DSPConfig) (now' : number) (N : nat) :
  generated = Ok signal ->
  fftSize dspConfig = of_nat N ->
  (Z.of_nat N <= max_safe_integer)%Z ->
  recognized (windowType dspConfig) ->
  exists spectrum,
    (let* signal := generated in
     let* fftProcessor := constructor dspConfig in
     let* spectrum := processSignal fftProcessor signal now' in
     Ok (Some (signal, spectrum))) = Ok (Some (signal, spectrum)) /\
    length (frequencies spectrum) = (N / 2)%nat /\
    length (magnitudes spectrum) = ((N + 1) / 2)%nat /\
    binWidth spectrum = (sampleRate signal / fftSize dspConfig)%js.
Proof.
  intros -> HF HN Hrec.
  destruct (processSignal_shape {| config := dspConfig |} signal now' N HF HN Hrec)
    as (sp & Hsp & _ & Hfl & Hml).
  exists sp. cbn [bind constructor]. rewrite Hsp. cbn [bind].
  split; [reflexivity|]. split; [exact Hfl|]. split; [exact Hml|].
  destruct (processSignal_inv _ _ _ _ Hsp) as (_ & _ & _ & _ & _ & _ & _ & _ & Hbw).
  exact Hbw.
Qed.

(** X23. The whole pipeline: for each of the four signal types, when
    floor(duration * sampleRate) is a count n and fftSize is a whole number
    N (both accepted by the typed-array constructor) and the window is
    recognized, [generateAndAnalyze] hands over a signal of n samples at the
    requested sample rate and its spectrum, with floor(N/2) frequencies,
    ceil(N/2) magnitudes and bin width sampleRate / fftSize. *)
Theorem generateAndAnalyze_returns_signal_and_spectrum
    (signalParams : RFAnalysisApp.SignalParams) (dspConfig : DSPConfig)
    (random : nat -> R) (now now' : number) (n N : nat) :
  RFAnalysisApp.type signalParams = "sine"%string \/
  RFAnalysisApp.type signalParams = "multitone"%string \/
  RFAnalysisApp.type signalParams = "noise"%string \/
  RFAnalysisApp.type signalParams = "chirp"%string ->
  Math_floor (RFAnalysisApp.duration signalParams
              * RFAnalysisApp.sampleRate signalParams) = of_nat n ->
  (Z.of_nat n <= max_safe_integer)%Z ->
  fftSize dspConfig = of_nat N ->
  (Z.of_nat N <= max_safe_integer)%Z ->
  recognized (windowType dspConfig) ->
  exists signal spectrum,
    RFAnalysisApp.generateAndAnalyze signalParams dspConfig random now now'
    = Ok (Some (signal, spectrum)) /\
    length (samples signal) = n /\
    sampleRate signal = RFAnalysisApp.sampleRate signalParams /\
    length (frequencies spectrum) = (N / 2)%nat /\
    length (magnitudes spectrum) = ((N + 1) / 2)%nat /\
    binWidth spectrum =
      (RFAnalysisApp.sampleRate signalParams / fftSize dspConfig)%js.
Proof.
  intros Htype Hfloor Hn HF HN Hrec.
  destruct (allocation_of_count _ n Hfloor Hn) as [Ha Hit].
  assert (Hlen : forall f : nat -> number,
             length (f <$> seq 0 (iterations
                                    (Math_floor (RFAnalysisApp.duration signalParams
                                                 * RFAnalysisApp.sampleRate signalParams))))
             = n).
  { intros f. rewrite length_fmap, length_seq. exact Hit. }
  unfold RFAnalysisApp.generateAndAnalyze.
  destruct Htype as [-> | [-> | [-> | ->]]];
    cbn [String.eqb Ascii.eqb Bool.eqb];
    [ pose proof (createSineWave_eq (RFAnalysisApp.frequency signalParams)
                    (RFAnalysisApp.amplitude signalParams) _ _ now _ Ha) as Hsig
    | pose proof (createMultiTone_eq
                    [RFAnalysisApp.frequency signalParams;
                     (RFAnalysisApp.frequency signalParams * Real 2)%js;
                     (RFAnalysisApp.frequency signalParams * Real 3)%js]
                    [RFAnalysisApp.amplitude signalParams;
                     (RFAnalysisApp.amplitude signalParams * Real 0.5)%js;
                     (RFAnalysisApp.amplitude signalParams * Real 0.3)%js]
                    _ _ now _ Ha) as Hsig
    | pose proof (createWhiteNoise_eq random
                    (RFAnalysisApp.amplitude signalParams) _ _ now _ Ha) as Hsig
    | pose proof (createChirp_eq (RFAnalysisApp.frequency signalParams)
                    (RFAnalysisApp.frequency signalParams * Real 4)%js
                    _ _ now _ Ha) as Hsig ];
    destruct (analysis_of_generated_signal _ _ dspConfig now' N Hsig HF HN Hrec)
      as (spectrum & Hrun & Hfl & Hml & Hbw);
    eexists _, spectrum; (split; [exact Hrun|]);
    cbn [samples sampleRate] in *; rewrite Hlen; auto 10.
Qed.

Lemma generateAndAnalyze_returns_signal_and_spectrum_witness :
  exists signal spectrum,
    RFAnalysisApp.generateAndAnalyze
      {| RFAnalysisApp.type := "chirp"; RFAnalysisApp.frequency := Real 1000;
         RFAnalysisApp.amplitude := Real 1; RFAnalysisApp.duration := Real 1;
         RFAnalysisApp.sampleRate := Real 4 |}
      {| fftSize := of_nat 4; windowType := "hanning"; averagingCount := Real 1 |}
      (fun _ => 0%R) zero zero
    = Ok (Some (signal, spectrum)) /\
    length (samples signal) = 4%nat /\
    length (frequencies spectrum) = 2%nat /\
    length (magnitudes spectrum) = 2%nat.
Proof.
  destruct (generateAndAnalyze_returns_signal_and_spectrum
              {| RFAnalysisApp.type := "chirp"; RFAnalysisApp.frequency := Real 1000;
                 RFAnalysisApp.amplitude := Real 1; RFAnalysisApp.duration := Real 1;
                 RFAnalysisApp.sampleRate := Real 4 |}
              {| fftSize := of_nat 4; windowType := "hanning";
                 averagingCount := Real 1 |}
              (fun _ => 0%R) zero zero 4 4
              (or_intror (or_intror (or_intror eq_refl)))
              floor_1_times_4 ltac:(unfold max_safe_integer; lia)
              eq_refl ltac:(unfold max_safe_integer; lia)
              (or_intror (or_introl eq_refl)))
    as (signal & spectrum & Hrun & Hn & _ & Hfl & Hml & _).
  exists signal, spectrum. auto.
Defined.

Lemma falsy_amplitudes_of_zero (j : nat) :
  or_default ([Real 0; (Real 0 * Real 0.5)%js; (Real 0 * Real 0.3)%js] !! j) (Real 1)
  = or_default ([Real 1; Real 1; Real 1] !! j) (Real 1).
Proof.
  assert (H1 : truthy (Real 1) = true).
  { unfold truthy. destruct (Req_dec_T 1 0); [lra | reflexivity]. }
  destruct j as [|[|[|j]]]; cbn [lookup list_lookup or_default mul truthy];
    try reflexivity;
    change (if Req_dec_T 1 0 is left _ then false else true) with (truthy (Real 1));
    rewrite H1;
    match goal with
    | |- context [Req_dec_T ?a 0] => destruct (Req_dec_T a 0); [reflexivity | lra]
    end.
Qed.

(** X24. The multi-tone of the application at amplitude 0 is not silence:
    the three amplitudes 0, 0 * 0.5 and 0 * 0.3 all count as 1, so the
    signal handed over is the multi-tone of the frequencies f, 2f and 3f
    with three unit amplitudes. *)
Theorem generateAndAnalyze_multitone_at_amplitude_zero
    (signalParams : RFAnalysisApp.SignalParams) (dspConfig : DSPConfig)
    (random : nat -> R) (now now' : number)
    (signal : TimeSignal) (spectrum : SpectrumData) :
  RFAnalysisApp.type signalParams = "multitone"%string ->
  RFAnalysisApp.amplitude signalParams = Real 0 ->
  RFAnalysisApp.generateAndAnalyze signalParams dspConfig random now now'
  = Ok (Some (signal, spectrum)) ->
  createMultiTone
    [RFAnalysisApp.frequency signalParams;
     (RFAnalysisApp.frequency signalParams * Real 2)%js;
     (RFAnalysisApp.frequency signalParams * Real 3)%js]
    [Real 1; Real 1; Real 1]
    (RFAnalysisApp.duration signalParams)
    (RFAnalysisApp.sampleRate signalParams) now
  = Ok signal.
Proof.
  intros Htype Hamp. unfold RFAnalysisApp.generateAndAnalyze.
  rewrite Htype, Hamp. cbn [String.eqb Ascii.eqb Bool.eqb].
  rewrite (createMultiTone_ext _ _ [Real 1; Real 1; Real 1])
    by (intros j _; apply falsy_amplitudes_of_zero).
  destruct (createMultiTone _ _ _ _ _) as [sig|e]; cbn [bind constructor];
    [|discriminate].
  destruct (processSignal _ _ _) as [sp|e]; cbn [bind]; [|discriminate].
  intros H. apply Ok_inj in H. apply (inj Some) in H.
  apply (f_equal fst) in H. cbn [fst] in H. rewrite H. reflexivity.
Qed.

Lemma generateAndAnalyze_multitone_at_amplitude_zero_witness :
  exists signal spectrum,
    RFAnalysisApp.generateAndAnalyze
      {| RFAnalysisApp.type := "multitone"; RFAnalysisApp.frequency := Real 1000;
         RFAnalysisApp.amplitude := Real 0; RFAnalysisApp.duration := Real 1;
         RFAnalysisApp.sampleRate := Real 4 |}
      {| fftSize := of_nat 4; windowType := "hanning"; averagingCount := Real 1 |}
      (fun _ => 0%R) zero zero
    = Ok (Some (signal, spectrum)) /\
    createMultiTone
      [Real 1000; (Real 1000 * Real 2)%js; (Real 1000 * Real 3)%js]
      [Real 1; Real 1; Real 1] (Real 1) (Real 4) zero
    = Ok signal.
Proof.
  destruct (allocation_of_count _ 4 floor_1_times_4
              ltac:(unfold max_safe_integer; lia)) as [Ha _].
  pose proof (createMultiTone_eq
                [Real 1000; (Real 1000 * Real 2)%js; (Real 1000 * Real 3)%js]
                [Real 0; (Real 0 * Real 0.5)%js; (Real 0 * Real 0.3)%js]
                (Real 1) (Real 4) zero _ Ha) as Hsig.
  destruct (analysis_of_generated_signal _ _
              {| fftSize := of_nat 4; windowType := "hanning";
                 averagingCount := Real 1 |}
              zero 4 Hsig eq_refl ltac:(unfold max_safe_integer; lia)
              (or_intror (or_introl eq_refl)))
    as (spectrum & Hrun & _).
  match type of Hrun with
  | _ = Ok (Some (?generated, _)) => exists generated, spectrum
  end.
  assert (Hcall :
    RFAnalysisApp.generateAndAnalyze
      {| RFAnalysisApp.type := "multitone"; RFAnalysisApp.frequency := Real 1000;
         RFAnalysisApp.amplitude := Real 0; RFAnalysisApp.duration := Real 1;
         RFAnalysisApp.sampleRate := Real 4 |}
      {| fftSize := of_nat 4; windowType := "hanning"; averagingCount := Real 1 |}
      (fun _ => 0%R) zero zero
    = Ok (Some (_, spectrum))) by exact Hrun.
  split; [exact Hcall|].
  apply (fun Ht Ha =>
           generateAndAnalyze_multitone_at_amplitude_zero _ _ _ _ _ _ _
             Ht Ha Hcall); reflexivity.
Defined.

End Application.
